(** * FarnDB: a shallow embedding of [farndb.py]

    The engine keeps every collection resident in memory ([self.data]) and
    mirrors it to one JSON file after each mutation.  Documents are Python
    [dict] objects: the engine stores the caller's object itself on [insert]
    and hands the stored objects out again on [find], so the embedding keeps
    an object store (a heap of dictionaries addressed by reference) next to
    the collection table.  Wall-clock readings ([time.time()]) come from an
    oracle indexed by the number of readings taken so far. *)

From Stdlib Require Import ZArith String List Bool Lia.
From Stdlib Require Import Floats.PrimFloat Floats.SpecFloat Floats.FloatOps.
From Stdlib Require Import DecimalString DecimalZ.
From Stdlib Require Uint63.
From stdpp Require Import gmap strings list.

Set Warnings "-register-all".

Local Open Scope string_scope.
Local Open Scope list_scope.

(** ** Python values *)

(** The JSON-compatible value tree a document holds.  Python floats are
    IEEE binary64, which is what Rocq's primitive [float] is. *)
Inductive value : Type :=
| VNone
| VBool (b : bool)
| VInt (z : Z)
| VFloat (f : float)
| VStr (s : string)
| VList (xs : list value)
| VDict (kvs : list (string * value)).

(** ** Dictionaries

    A Python [dict] keeps its keys in insertion order; it is embedded as an
    association list in which [dict_set] replaces in place or appends. *)
Module Dict.
Section Ops.
Context {V : Type}.

Fixpoint get (k : string) (d : list (string * V)) : option V :=
  match d with
  | [] => None
  | (k', v) :: r => if String.eqb k' k then Some v else get k r
  end.

(** [k in d] *)
Definition mem (k : string) (d : list (string * V)) : bool :=
  match get k d with Some _ => true | None => false end.

(** [d[k] = v] *)
Fixpoint set (k : string) (v : V) (d : list (string * V)) : list (string * V) :=
  match d with
  | [] => [(k, v)]
  | (k', v') :: r =>
      if String.eqb k' k then (k', v) :: r else (k', v') :: set k v r
  end.

(** [d.update(p)]: every pair of [p] is stored into [d], in order. *)
Fixpoint update (d p : list (string * V)) : list (string * V) :=
  match p with
  | [] => d
  | (k, v) :: r => update (set k v d) r
  end.

(** [del d[k]] *)
Fixpoint del (k : string) (d : list (string * V)) : list (string * V) :=
  match d with
  | [] => []
  | (k', v) :: r => if String.eqb k' k then r else (k', v) :: del k r
  end.

Definition keys (d : list (string * V)) : list string := map fst d.
End Ops.
End Dict.

Abbreviation dict := (list (string * value)).

(** ** Equality of Python values ([==] and [!=]) *)

(** An [int] and a [float] are compared exactly, on the mathematical value
    of the float; NaN and the infinities equal no integer. *)
Definition float_eqb_Z (f : float) (z : Z) : bool :=
  match Prim2SF f with
  | S754_zero _ => Z.eqb z 0
  | S754_finite s m e =>
      let n := if s then Z.neg m else Z.pos m in
      if (0 <=? e)%Z then Z.eqb z (n * 2 ^ e) else Z.eqb (z * 2 ^ (- e)) n
  | _ => false
  end.

(** [a == b].  [bool] is a subclass of [int], and the three numeric types
    compare by value; [None], strings, lists and dicts only equal their own
    kind.  Lists compare element by element, dicts key by key whatever the
    order of the keys.  (CPython also takes an element to equal itself when
    both containers hold the very same object; values here are trees without
    identity, which differs for a NaN object shared by both operands only.) *)
Fixpoint py_eq (a b : value) {struct a} : bool :=
  match a, b with
  | VNone, VNone => true
  | VBool x, VBool y => Bool.eqb x y
  | VBool x, VInt z => Z.eqb (Z.b2z x) z
  | VBool x, VFloat f => float_eqb_Z f (Z.b2z x)
  | VInt z, VBool y => Z.eqb z (Z.b2z y)
  | VInt z, VInt z' => Z.eqb z z'
  | VInt z, VFloat f => float_eqb_Z f z
  | VFloat f, VBool y => float_eqb_Z f (Z.b2z y)
  | VFloat f, VInt z => float_eqb_Z f z
  | VFloat f, VFloat g => PrimFloat.eqb f g
  | VStr s, VStr t => String.eqb s t
  | VList xs, VList ys =>
      (fix go (xs ys : list value) {struct xs} : bool :=
         match xs, ys with
         | [], [] => true
         | x :: xs', y :: ys' => py_eq x y && go xs' ys'
         | _, _ => false
         end) xs ys
  | VDict d, VDict e =>
      Nat.eqb (length d) (length e) &&
      (fix go (d : dict) {struct d} : bool :=
         match d with
         | [] => true
         | (k, v) :: d' =>
             match Dict.get k e with
             | Some w => py_eq v w
             | None => false
             end && go d'
         end) d
  | _, _ => false
  end.

(** [a != b] *)
Definition py_ne (a b : value) : bool := negb (py_eq a b).

(** ** Conversions used for identifiers *)

Inductive exn : Type :=
| OverflowError   (* int(inf) *)
| ValueError.     (* int(nan) *)

Inductive result (A : Type) : Type :=
| Ok (a : A)
| Raised (e : exn).
Arguments Ok {A} a.
Arguments Raised {A} e.

(** [int(f)]: truncation toward zero. *)
Definition py_int (f : float) : result Z :=
  match Prim2SF f with
  | S754_zero _ => Ok 0%Z
  | S754_finite s m e =>
      let a := if (0 <=? e)%Z then (Z.pos m * 2 ^ e)%Z
               else (Z.pos m / 2 ^ (- e))%Z in
      Ok (if s then (- a)%Z else a)
  | S754_infinity _ => Raised OverflowError
  | S754_nan => Raised ValueError
  end.

(** [str(z)] for an [int]: its decimal digits, with a leading minus sign. *)
Definition py_str (z : Z) : string :=
  NilEmpty.string_of_int (Z.to_int z).


(** ** The object store and the engine state *)

(** A reference to a [dict] object. *)
Abbreviation loc := nat.

(** What [json.dump(self.data, f)] writes: every collection with its
    documents by value, as they are at the time of the call. *)
Abbreviation snapshot := (list (string * list dict)).

(** What [_save_data] did, in order: the file was replaced, or the
    [IOError] was caught and reported. *)
Inductive event : Type :=
| Saved (snap : snapshot)
| SaveFailed.

Record state : Type := State {
  heap : gmap loc dict;             (* the live dict objects *)
  data : list (string * list loc);  (* self.data: name -> list of documents *)
  tick : nat;                       (* clock readings taken so far *)
  writable : bool;                  (* can the file at db_path be replaced? *)
  disk : option snapshot;           (* content of the file at db_path *)
  log : list event                  (* trace of _save_data *)
}.

(** The object a reference denotes.  A Python reference always denotes a
    live object; the default stands for no object of a running program. *)
Definition deref (h : gmap loc dict) (l : loc) : dict :=
  default [] (h !! l).

Definition set_heap (h : gmap loc dict) (s : state) : state :=
  State h (data s) (tick s) (writable s) (disk s) (log s).

Definition set_data (d : list (string * list loc)) (s : state) : state :=
  State (heap s) d (tick s) (writable s) (disk s) (log s).

Definition set_tick (t : nat) (s : state) : state :=
  State (heap s) (data s) t (writable s) (disk s) (log s).

(** The documents of a collection, by value. *)
Definition contents (h : gmap loc dict) (ls : list loc) : list dict :=
  map (deref h) ls.

Definition dump (s : state) : snapshot :=
  map (fun cl : string * list loc => (fst cl, contents (heap s) (snd cl))) (data s).

(** [_save_data]: dump to a temporary file and rename it over [db_path];
    an [IOError] is caught and printed, the memory is left as it is. *)
Definition _save_data (s : state) : state :=
  if writable s
  then State (heap s) (data s) (tick s) (writable s)
             (Some (dump s)) (log s ++ [Saved (dump s)])
  else State (heap s) (data s) (tick s) (writable s)
             (disk s) (log s ++ [SaveFailed]).

(** The engine on a path with no file: [_load_data] leaves [self.data]
    empty.  The heap holds whatever objects the caller's program has. *)
Definition fresh (h : gmap loc dict) (w : bool) : state :=
  State h [] 0 w None [].

(** ** Matching *)

(** The loop of [find] and [update]:
    [if key not in doc or doc[key] != value: match = False; break]. *)
Fixpoint query_match (doc query : dict) : bool :=
  match query with
  | [] => true
  | (key, v) :: rest =>
      match Dict.get key doc with
      | None => false
      | Some w => if py_ne w v then false else query_match doc rest
      end
  end.

(** [doc.get(key)] *)
Definition dict_get_or_none (key : string) (doc : dict) : value :=
  default VNone (Dict.get key doc).

(** The test of [delete]:
    [all(doc.get(key) == value for key, value in query.items())]. *)
Definition delete_match (doc query : dict) : bool :=
  forallb (fun kv : string * value =>
             py_eq (dict_get_or_none (fst kv) doc) (snd kv)) query.

(** ** Operations *)

Section Engine.
(** [now i] is what the [i]-th call of [time.time()] returns. *)
Variable now : nat -> float.

Definition create_collection (s : state) (collection_name : string) : state :=
  if Dict.mem collection_name (data s) then s
  else _save_data (set_data (data s ++ [(collection_name, [])]) s).

(** [self.data[collection_name]] where the collection exists. *)
Definition collection (s : state) (collection_name : string) : list loc :=
  default [] (Dict.get collection_name (data s)).

(** [insert] stores the caller's object [document] itself, after writing
    the three reserved fields into it. *)
Definition insert (s : state) (collection_name : string) (document : loc)
  : state * result string :=
  let s1 := create_collection s collection_name in
  match py_int (now (tick s1) * 1000000)%float with
  | Raised e => (set_tick (S (tick s1)) s1, Raised e)
  | Ok us =>
      let doc_id := py_str us in
      let d1 := Dict.set "_id" (VStr doc_id) (deref (heap s1) document) in
      let d2 := Dict.set "_created" (VFloat (now (S (tick s1)))) d1 in
      let d3 := Dict.set "_modified" (VFloat (now (S (S (tick s1))))) d2 in
      let h := <[document := d3]> (heap s1) in
      let docs := collection s1 collection_name ++ [document] in
      let s2 := State h (Dict.set collection_name docs (data s1))
                      (S (S (S (tick s1)))) (writable s1) (disk s1) (log s1) in
      (_save_data s2, Ok doc_id)
  end.

(** [find] returns the stored list itself when there is no query, and a
    new list of the stored objects when there is one. *)
Definition find (s : state) (collection_name : string) (query : option dict)
  : list loc :=
  match Dict.get collection_name (data s) with
  | None => []
  | Some documents =>
      match query with
      | None => documents
      | Some q => List.filter (fun doc => query_match (deref (heap s) doc) q) documents
      end
  end.

Definition find_one (s : state) (collection_name : string) (query : dict)
  : option loc :=
  match find s collection_name (Some query) with
  | [] => None
  | doc :: _ => Some doc
  end.

Definition count (s : state) (collection_name : string) (query : option dict) : Z :=
  Z.of_nat (length (find s collection_name query)).

(** The loop of [update] over the documents of the collection: the heap,
    the clock and [updated_count] are threaded through it. *)
Fixpoint update_loop (docs : list loc) (query update_data : dict)
         (h : gmap loc dict) (t : nat) (updated_count : Z)
  : gmap loc dict * nat * Z :=
  match docs with
  | [] => (h, t, updated_count)
  | doc :: rest =>
      if query_match (deref h doc) query
      then
        let d1 := Dict.update (deref h doc) update_data in
        let d2 := Dict.set "_modified" (VFloat (now t)) d1 in
        update_loop rest query update_data (<[doc := d2]> h) (S t)
                    (updated_count + 1)
      else update_loop rest query update_data h t updated_count
  end.

Definition update (s : state) (collection_name : string)
           (query update_data : dict) : state * Z :=
  match Dict.get collection_name (data s) with
  | None => (s, 0%Z)
  | Some docs =>
      let '(h, t, updated_count) :=
        update_loop docs query update_data (heap s) (tick s) 0 in
      let s1 := State h (data s) t (writable s) (disk s) (log s) in
      if (0 <? updated_count)%Z then (_save_data s1, updated_count)
      else (s1, updated_count)
  end.

Definition delete (s : state) (collection_name : string) (query : dict)
  : state * Z :=
  match Dict.get collection_name (data s) with
  | None => (s, 0%Z)
  | Some docs =>
      let original_count := Z.of_nat (length docs) in
      let kept :=
        List.filter (fun doc => negb (delete_match (deref (heap s) doc) query))
                    docs in
      let s1 := set_data (Dict.set collection_name kept (data s)) s in
      let deleted_count := (original_count - Z.of_nat (length kept))%Z in
      if (0 <? deleted_count)%Z then (_save_data s1, deleted_count)
      else (s1, deleted_count)
  end.

Definition list_collections (s : state) : list string := Dict.keys (data s).

Definition drop_collection (s : state) (collection_name : string)
  : state * bool :=
  if Dict.mem collection_name (data s)
  then (_save_data (set_data (Dict.del collection_name (data s)) s), true)
  else (s, false).

(** ** What the caller can do with a reference *)

(** [doc[key] = v] on an object the caller holds. *)
Definition py_setitem (s : state) (doc : loc) (key : string) (v : value) : state :=
  set_heap (<[doc := Dict.set key v (deref (heap s) doc)]> (heap s)) s.
End Engine.

(** ** Sequences of calls *)

Inductive call : Type :=
| CreateCollection (collection_name : string)
| Insert (collection_name : string) (document : loc)
| Update (collection_name : string) (query update_data : dict)
| Delete (collection_name : string) (query : dict)
| DropCollection (collection_name : string).

Section Runs.
Variable now : nat -> float.

(** The state a call leaves behind, whatever it returns or raises. *)
Definition step (s : state) (c : call) : state :=
  match c with
  | CreateCollection name => create_collection s name
  | Insert name document => fst (insert now s name document)
  | Update name query update_data => fst (update now s name query update_data)
  | Delete name query => fst (delete s name query)
  | DropCollection name => fst (drop_collection s name)
  end.

Definition run (s : state) (calls : list call) : state :=
  fold_left step calls s.

(** [insert] called on each object of [documents] in turn, all into one
    collection: the final state and what each call returned. *)
Fixpoint insert_all (s : state) (collection_name : string)
         (documents : list loc) : state * list (result string) :=
  match documents with
  | [] => (s, [])
  | document :: rest =>
      let '(s1, r) := insert now s collection_name document in
      let '(s2, rs) := insert_all s1 collection_name rest in
      (s2, r :: rs)
  end.

(** What [insert], started at clock position [t], leaves in the object
    it stores: the three reserved fields written over [d]. *)
Definition stamped (t : nat) (doc_id : string) (d : dict) : dict :=
  Dict.set "_modified" (VFloat (now (S (S t))))
    (Dict.set "_created" (VFloat (now (S t)))
       (Dict.set "_id" (VStr doc_id) d)).

(** The reading an [insert] started at clock position [t] derives its
    identifier from: [int(time.time() * 1000000)]. *)
Definition id_reading (t : nat) : result Z :=
  py_int (now t * 1000000)%float.

(** The clock positions of the identifier readings of [n] successive
    inserts, the first of which starts at position [t]: every insert reads
    the clock three times. *)
Definition id_ticks (t n : nat) : list nat :=
  map (fun i => t + 3 * i) (seq 0 n).
End Runs.

(** ** Views of the stored documents *)

(** The [_id] fields of the documents of a collection, in order. *)
Definition stored_ids (s : state) (collection_name : string) : list (option value) :=
  map (fun l => Dict.get "_id" (deref (heap s) l)) (collection s collection_name).


(** The object is a document of some collection. *)
Definition stored (s : state) (l : loc) : Prop :=
  exists collection_name, In l (collection s collection_name).

(** What a later [find] shows of a collection: its documents by value. *)
Definition view (s : state) (collection_name : string) (query : option dict)
  : list dict :=
  contents (heap s) (find s collection_name query).

(** The documents [delete] takes out of a collection: those passing its
    own test. *)
Definition delete_matched (s : state) (collection_name : string) (query : dict)
  : list loc :=
  List.filter (fun doc => delete_match (deref (heap s) doc) query)
              (collection s collection_name).

(** The Python type of a value, and its kind under [==], where the three
    numeric types form one kind. *)
Inductive pytype : Type :=
| TNone | TBool | TInt | TFloat | TStr | TList | TDict.

Definition type_of (v : value) : pytype :=
  match v with
  | VNone => TNone
  | VBool _ => TBool
  | VInt _ => TInt
  | VFloat _ => TFloat
  | VStr _ => TStr
  | VList _ => TList
  | VDict _ => TDict
  end.

Inductive kind : Type :=
| KNone | KNumber | KStr | KList | KDict.

Definition kind_of (v : value) : kind :=
  match v with
  | VNone => KNone
  | VBool _ | VInt _ | VFloat _ => KNumber
  | VStr _ => KStr
  | VList _ => KList
  | VDict _ => KDict
  end.

(** Every pair of the query is met by the document: the key is there and
    its value equals the queried one under [==]. *)
Definition query_holds (doc query : dict) : Prop :=
  forall key v, In (key, v) query ->
    exists w, Dict.get key doc = Some w /\ py_eq w v = true.

(** ** Opening a database

    [__init__] sets [self.data = {}] and calls [_load_data]. *)

(** What [_load_data] meets at [db_path]: no file, a file it cannot read or
    parse, or a file that parses; [Json snap] carries the value
    [json.load] returns, a mapping from collection names to lists of
    documents (a file that parses to a value of another shape is left
    out). *)
Inductive file : Type :=
| NoFile
| Unparseable
| Json (snap : snapshot).

(** The reference of a newly built object: one that denotes no object yet. *)
Definition new_loc (h : gmap loc dict) : loc := base.fresh (dom h).

(** The parser builds a new [dict] object for every document it reads. *)
Fixpoint load_docs (h : gmap loc dict) (docs : list dict)
  : gmap loc dict * list loc :=
  match docs with
  | [] => (h, [])
  | d :: rest =>
      let l := new_loc h in
      let '(h1, ls) := load_docs (<[l := d]> h) rest in
      (h1, l :: ls)
  end.

Fixpoint load_collections (h : gmap loc dict) (snap : snapshot)
  : gmap loc dict * list (string * list loc) :=
  match snap with
  | [] => (h, [])
  | (name, docs) :: rest =>
      let '(h1, ls) := load_docs h docs in
      let '(h2, d) := load_collections h1 rest in
      (h2, (name, ls) :: d)
  end.

(** [_load_data]: the objects after the call and [self.data].  A missing
    file and a file that cannot be loaded both leave the database empty;
    the latter prints a warning. *)
Definition _load_data (h : gmap loc dict) (f : file)
  : gmap loc dict * list (string * list loc) :=
  match f with
  | Json snap => load_collections h snap
  | Unparseable => (h, [])
  | NoFile => (h, [])
  end.

(** The file an engine finds at the path of [s]. *)
Definition file_at (s : state) : file :=
  match disk s with
  | Some snap => Json snap
  | None => NoFile
  end.

(** A second engine constructed on the path of [s], in the same program:
    [FarnDB(db_path)] again. *)
Definition reopen (s : state) : state :=
  let '(h, d) := _load_data (heap s) (file_at s) in
  State h d (tick s) (writable s) (disk s) (log s).

(** The collections the file holds, none when there is no file. *)
Definition on_file (s : state) : snapshot := default [] (disk s).

(** The file holds what the memory holds, on a path that can be written. *)
Definition mirrored (s : state) : Prop :=
  writable s = true /\ on_file s = dump s.

(** The number of times [_save_data] ran between two states. *)
Definition saves (s s' : state) : nat := length (log s') - length (log s).

(** The value holds no NaN.  Such a value equals itself under [==], so
    that CPython's shortcut for identical elements of two containers makes
    no difference on it. *)
Fixpoint nan_free (v : value) : bool :=
  match v with
  | VFloat f => PrimFloat.eqb f f
  | VList xs =>
      (fix go (xs : list value) : bool :=
         match xs with
         | [] => true
         | x :: xs' => nan_free x && go xs'
         end) xs
  | VDict kvs =>
      (fix go (kvs : dict) : bool :=
         match kvs with
         | [] => true
         | (_, x) :: kvs' => nan_free x && go kvs'
         end) kvs
  | _ => true
  end.

(** No value of the query holds a NaN. *)
Definition query_nan_free (query : dict) : bool :=
  forallb (fun kv : string * value => nan_free (snd kv)) query.

(** ** What a call returns *)

(** The part of the state the operations compute with: the objects, the
    table of collections and the clock position. *)
Definition memory (s : state) : gmap loc dict * list (string * list loc) * nat :=
  (heap s, data s, tick s).

Inductive answer : Type :=
| ANothing
| AId (r : result string)
| ACount (n : Z)
| ABool (b : bool).

(** A call with what it returns. *)
Definition perform (now : nat -> float) (s : state) (c : call) : state * answer :=
  match c with
  | CreateCollection name => (create_collection s name, ANothing)
  | Insert name document =>
      let '(s1, r) := insert now s name document in (s1, AId r)
  | Update name query update_data =>
      let '(s1, n) := update now s name query update_data in (s1, ACount n)
  | Delete name query =>
      let '(s1, n) := delete s name query in (s1, ACount n)
  | DropCollection name =>
      let '(s1, b) := drop_collection s name in (s1, ABool b)
  end.

(** ** The [find] command of [farndb_cli.py] *)

(** [l[:n]] *)
Definition py_slice_to {A : Type} (l : list A) (n : Z) : list A :=
  if (n <? 0)%Z then firstn (Z.to_nat (Z.of_nat (length l) + n)) l
  else firstn (Z.to_nat n) l.

(** The documents the command prints.  [query] is the parsed [--query]
    when one is given (and is a JSON object), [limit] the [--limit]:
    [query = {}] unless [args.query], and the slice is taken only
    [if args.limit]. *)
Definition cli_find (s : state) (collection_name : string)
           (query : option dict) (limit : option Z) : list loc :=
  let q := match query with Some q => q | None => [] end in
  let results := find s collection_name (Some q) in
  match limit with
  | Some n => if (n =? 0)%Z then results else py_slice_to results n
  | None => results
  end.

(** ** The properties the interface is expected to have

    Each is stated for one call, so that it can be examined at a given
    state and arguments. *)

(** [update] leaves [_id] and [_created] of every matched document alone. *)
Definition update_keeps_reserved (now : nat -> float) (s : state)
           (c : string) (q p : dict) : Prop :=
  forall l, In l (find s c (Some q)) ->
    let s' := fst (update now s c q p) in
    Dict.get "_id" (deref (heap s') l) = Dict.get "_id" (deref (heap s) l) /\
    Dict.get "_created" (deref (heap s') l) = Dict.get "_created" (deref (heap s) l).

(** [delete] takes out the documents [find] returns, no other. *)
Definition delete_removes_what_find_returns (s : state) (c : string) (q : dict)
  : Prop :=
  delete_matched s c q = find s c (Some q).

(** A document [find] returns holds, for every queried key, a value of the
    very type of the queried value. *)
Definition find_type_sensitive (s : state) (c : string) (q : dict) : Prop :=
  forall l, In l (find s c (Some q)) ->
    forall key v, In (key, v) q ->
      exists w, Dict.get key (deref (heap s) l) = Some w /\ type_of w = type_of v.

(** No later [find] can tell that the caller wrote into a document an
    earlier [find] returned. *)
Definition find_results_isolated (s : state) (c : string) (oq : option dict)
  : Prop :=
  forall l key v, In l (find s c oq) ->
    forall c' oq', view (py_setitem s l key v) c' oq' = view s c' oq'.

(** A call on collection [c] leaves the documents of every other
    collection, read by value, as they were. *)
Definition others_unchanged (s s' : state) (c : string) : Prop :=
  forall c', c' <> c ->
    contents (heap s') (collection s' c') = contents (heap s) (collection s c').

(** The identifiers returned by successive inserts into one collection
    are pairwise distinct. *)
Definition ids_pairwise_distinct (now : nat -> float) (s : state) (c : string)
           (docs : list loc) : Prop :=
  NoDup (snd (insert_all now s c docs)).






(** ** Sample data *)

Module Sample.
(** A clock that advances an eighth of a second between two readings. *)
Definition ticking_clock (i : nat) : float :=
  (1730000000 + of_uint63 (Uint63.of_Z (Z.of_nat i)) * 0.125)%float.

(** A clock too coarse to tell two readings apart. *)
Definition coarse_clock (i : nat) : float := 1730000000.5%float.

Definition alice : dict :=
  [("name", VStr "Alice"); ("age", VInt 30); ("active", VBool true)].
Definition bob : dict :=
  [("name", VStr "Bob"); ("age", VStr "30")].

Definition carol : dict := [("name", VStr "Carol")].
Definition dave : dict := [("name", VStr "Dave")].


Definition test_user : dict := [("name", VStr "Test User"); ("value", VInt 42)].
Definition test1 : dict := [("data", VStr "test1")].
Definition test2 : dict := [("data", VStr "test2")].

(** The caller's objects before any call. *)
Definition objects : gmap loc dict :=
  {[ 0 := alice; 1 := bob; 2 := carol; 3 := dave;
     4 := test_user; 5 := test1; 6 := test2 ]}.

(** [db.insert("users", alice); db.insert("users", bob)] on a new file. *)
Definition users : state :=
  run ticking_clock (fresh objects true) [Insert "users" 0; Insert "users" 1].

(** The same, followed by [db.insert("admins", carol)]. *)
Definition users_and_admins : state :=
  run ticking_clock users [Insert "admins" 2].


(** Calls that leave [_created] to the engine. *)
Definition plain_calls : list call :=
  [Insert "users" 0; Insert "users" 1;
   Update "users" [("name", VStr "Alice")] [("age", VInt 31)];
   Delete "users" [("name", VStr "Bob")]].

(** The states [test_basic_operations] of [test_farndb.py] goes through. *)
Definition inserted : state :=
  fst (insert ticking_clock (fresh objects true) "test" 4).
Definition updated : state :=
  fst (update ticking_clock inserted "test"
         [("name", VStr "Test User")] [("value", VInt 100)]).
Definition deleted : state :=
  fst (delete updated "test" [("name", VStr "Test User")]).
Definition three_collections : state :=
  run ticking_clock deleted [Insert "collection1" 5; Insert "collection2" 6].
Definition dropped : state :=
  fst (drop_collection three_collections "collection1").
End Sample.

(** * Properties *)

(** ** Dictionaries *)

Section DictFacts.
Context {V : Type}.
Implicit Types (d p : list (string * V)) (k : string) (v : V).

Lemma get_set_eq k v d : Dict.get k (Dict.set k v d) = Some v.
Proof.
  induction d as [|[k' v'] r IH]; simpl.
  - now rewrite String.eqb_refl.
  - destruct (String.eqb k' k) eqn:E; simpl; rewrite E; auto.
Qed.

Lemma get_set_ne k k' v d :
  k <> k' -> Dict.get k' (Dict.set k v d) = Dict.get k' d.
Proof.
  intros Hne. induction d as [|[k0 v0] r IH]; simpl.
  - destruct (String.eqb_spec k k'); [contradiction | reflexivity].
  - destruct (String.eqb_spec k0 k) as [->|Hk]; simpl.
    + destruct (String.eqb_spec k k'); [contradiction | reflexivity].
    + destruct (String.eqb_spec k0 k'); auto.
Qed.

Lemma set_same k v d : Dict.get k d = Some v -> Dict.set k v d = d.
Proof.
  induction d as [|[k' v'] r IH]; simpl; [discriminate|].
  destruct (String.eqb k' k); intros H.
  - congruence.
  - now rewrite IH.
Qed.

Lemma get_update_other k d p :
  ~ In k (Dict.keys p) -> Dict.get k (Dict.update d p) = Dict.get k d.
Proof.
  revert d. induction p as [|[k' v'] r IH]; intros d Hk; simpl in *; [reflexivity|].
  rewrite IH by tauto. apply get_set_ne. tauto.
Qed.

Lemma get_snoc_eq k v d :
  Dict.get k d = None -> Dict.get k (d ++ [(k, v)]) = Some v.
Proof.
  induction d as [|[k' v'] r IH]; simpl.
  - now rewrite String.eqb_refl.
  - destruct (String.eqb k' k); [discriminate | exact IH].
Qed.

Lemma get_snoc_ne k k' v d :
  k <> k' -> Dict.get k' (d ++ [(k, v)]) = Dict.get k' d.
Proof.
  intros Hne. induction d as [|[k0 v0] r IH]; simpl.
  - destruct (String.eqb_spec k k'); [contradiction | reflexivity].
  - destruct (String.eqb k0 k'); auto.
Qed.

Lemma get_del_ne k k' d :
  k <> k' -> Dict.get k' (Dict.del k d) = Dict.get k' d.
Proof.
  intros Hne. induction d as [|[k0 v0] r IH]; simpl; [reflexivity|].
  destruct (String.eqb_spec k0 k) as [->|Hk]; simpl.
  - destruct (String.eqb_spec k k'); [contradiction | reflexivity].
  - destruct (String.eqb k0 k'); auto.
Qed.

Lemma mem_get k d : Dict.mem k d = true <-> exists v, Dict.get k d = Some v.
Proof.
  unfold Dict.mem. destruct (Dict.get k d); split; eauto; try discriminate.
  intros [? ?]; discriminate.
Qed.

Lemma mem_false k d : Dict.mem k d = false <-> Dict.get k d = None.
Proof.
  unfold Dict.mem. destruct (Dict.get k d); split; auto; discriminate.
Qed.
Lemma get_none_keys k d : Dict.get k d = None <-> ~ In k (Dict.keys d).
Proof.
  induction d as [|[k' v'] r IH]; simpl; [tauto|].
  destruct (String.eqb_spec k' k) as [->|Hne].
  - split; [discriminate | tauto].
  - rewrite IH. tauto.
Qed.

Lemma keys_set k v d :
  Dict.keys (Dict.set k v d)
  = if Dict.mem k d then Dict.keys d else Dict.keys d ++ [k].
Proof.
  unfold Dict.mem. induction d as [|[k' v'] r IH]; simpl; [reflexivity|].
  destruct (String.eqb k' k); simpl; [reflexivity|].
  rewrite IH. now destruct (Dict.get k r).
Qed.

Lemma keys_snoc k v d : Dict.keys (d ++ [(k, v)]) = Dict.keys d ++ [k].
Proof. unfold Dict.keys. now rewrite map_app. Qed.

Lemma in_keys_del k k' d : In k' (Dict.keys (Dict.del k d)) -> In k' (Dict.keys d).
Proof.
  induction d as [|[k0 v0] r IH]; simpl; [tauto|].
  destruct (String.eqb k0 k); simpl; tauto.
Qed.

Lemma keys_del_NoDup k d : NoDup (Dict.keys d) -> NoDup (Dict.keys (Dict.del k d)).
Proof.
  induction d as [|[k0 v0] r IH]; simpl; [auto|].
  intros H. inversion H as [|x y Hx Hr]; subst.
  destruct (String.eqb k0 k); simpl; [exact Hr|].
  constructor; [|auto]. rewrite list_elem_of_In in *.
  intros Hin. apply Hx. eapply in_keys_del; eauto.
Qed.

Lemma get_del_eq k d : NoDup (Dict.keys d) -> Dict.get k (Dict.del k d) = None.
Proof.
  induction d as [|[k0 v0] r IH]; simpl; [auto|].
  intros H. inversion H as [|x y Hx Hr]; subst.
  destruct (String.eqb_spec k0 k) as [->|Hne]; simpl.
  - apply get_none_keys. now rewrite <- list_elem_of_In.
  - destruct (String.eqb_spec k0 k); [contradiction | auto].
Qed.

Lemma NoDup_snoc_key k d :
  ~ In k (Dict.keys d) -> NoDup (Dict.keys d) -> NoDup (Dict.keys d ++ [k]).
Proof.
  intros Hk Hd. apply NoDup_app. repeat split; auto.
  - intros x Hx Hx'. apply list_elem_of_In in Hx. apply list_elem_of_In in Hx'.
    destruct Hx' as [<-|[]]. contradiction.
  - apply NoDup_singleton.
Qed.
End DictFacts.

(** ** The object store *)

Lemma deref_insert_eq (h : gmap loc dict) l d : deref (<[l := d]> h) l = d.
Proof. unfold deref. now rewrite lookup_insert_eq. Qed.

Lemma deref_insert_ne (h : gmap loc dict) l l' d :
  l <> l' -> deref (<[l := d]> h) l' = deref h l'.
Proof. intros H. unfold deref. now rewrite lookup_insert_ne. Qed.

Lemma state_eta s :
  State (heap s) (data s) (tick s) (writable s) (disk s) (log s) = s.
Proof. now destruct s. Qed.

(** [_save_data] touches the file and the trace only. *)
Lemma save_heap s : heap (_save_data s) = heap s.
Proof. unfold _save_data. now destruct (writable s). Qed.

Lemma save_data s : data (_save_data s) = data s.
Proof. unfold _save_data. now destruct (writable s). Qed.

Lemma save_tick s : tick (_save_data s) = tick s.
Proof. unfold _save_data. now destruct (writable s). Qed.

Lemma save_collection s c : collection (_save_data s) c = collection s c.
Proof. unfold collection. now rewrite save_data. Qed.

(** ** Lists *)

Lemma filter_nil_all {A} (f : A -> bool) (l : list A) :
  List.filter f l = [] -> forall x, In x l -> f x = false.
Proof.
  intros H x Hx. destruct (f x) eqn:E; [|reflexivity].
  assert (Hin : In x (List.filter f l)) by (apply filter_In; auto).
  rewrite H in Hin. destruct Hin.
Qed.

Lemma filter_all {A} (f : A -> bool) (l : list A) :
  (forall x, In x l -> f x = true) -> List.filter f l = l.
Proof.
  induction l as [|a r IH]; intros H; simpl; [reflexivity|].
  rewrite (H a) by (now left). f_equal. apply IH. intros x Hx. apply H. now right.
Qed.

Lemma filter_none {A} (f : A -> bool) (l : list A) :
  (forall x, In x l -> f x = false) -> List.filter f l = [].
Proof.
  induction l as [|a r IH]; intros H; simpl; [reflexivity|].
  rewrite (H a) by (now left). apply IH. intros x Hx. apply H. now right.
Qed.

(** ** Calls that match nothing *)

Section NoMatch.
Variable now : nat -> float.

Lemma update_loop_no_match docs q p h t n :
  (forall l, In l docs -> query_match (deref h l) q = false) ->
  update_loop now docs q p h t n = (h, t, n).
Proof.
  induction docs as [|l r IH]; intros H; simpl; [reflexivity|].
  rewrite (H l) by (now left). apply IH. intros x Hx. apply H. now right.
Qed.

Lemma update_no_match s c q p :
  find s c (Some q) = [] -> update now s c q p = (s, 0%Z).
Proof.
  unfold find, update. destruct (Dict.get c (data s)) as [docs|]; [|reflexivity].
  intros H. rewrite update_loop_no_match.
  - simpl. now rewrite state_eta.
  - intros l Hl. exact (filter_nil_all _ _ H l Hl).
Qed.

Lemma delete_no_match s c q :
  delete_matched s c q = [] -> delete s c q = (s, 0%Z).
Proof.
  unfold delete_matched, collection, delete.
  destruct (Dict.get c (data s)) as [docs|] eqn:E; [|reflexivity].
  simpl. intros H. rewrite filter_all.
  - rewrite Z.sub_diag. simpl. rewrite set_same by exact E.
    unfold set_data. now rewrite state_eta.
  - intros l Hl. now rewrite (filter_nil_all _ _ H l Hl).
Qed.

Lemma missing_find s c oq : Dict.get c (data s) = None -> find s c oq = [].
Proof. unfold find. now intros ->. Qed.
End NoMatch.

(** C6 at the failing input: the query [{"nickname": None}] matches no
    document of [users] ([find] with it returns nothing, and [update] with
    it returns 0 and leaves the whole state as it was), yet [delete] with
    it returns 2, takes both documents out, runs [_save_data] and replaces
    the file. *)
Theorem noop_delete_null_query_saves :
  find Sample.users "users" (Some [("nickname", VNone)]) = [] /\
  update Sample.ticking_clock Sample.users "users"
         [("nickname", VNone)] [("age", VInt 1)] = (Sample.users, 0%Z) /\
  snd (delete Sample.users "users" [("nickname", VNone)]) = 2%Z /\
  saves Sample.users (fst (delete Sample.users "users" [("nickname", VNone)])) = 1 /\
  disk (fst (delete Sample.users "users" [("nickname", VNone)]))
  = Some [("users", [])].
Proof.
  split; [vm_compute; reflexivity|].
  split; [apply update_no_match; vm_compute; reflexivity|].
  repeat split; vm_compute; reflexivity.
Qed.

(** C7.  On a collection name that is not in the database, [find] returns
    the empty list, [count] returns 0, and [update] and [delete] return 0
    with the state untouched; none of them has a raising path. *)
Theorem missing_collection_is_not_an_error (now : nat -> float) s c oq q p :
  Dict.get c (data s) = None ->
  find s c oq = [] /\ count s c oq = 0%Z /\
  update now s c q p = (s, 0%Z) /\ delete s c q = (s, 0%Z).
Proof.
  intros H. unfold count. rewrite (missing_find s c oq H).
  unfold update, delete. rewrite H. auto.
Qed.

(** C5.  [delete] with the empty query returns the number of documents the
    collection held and leaves it without any document. *)
Theorem delete_all_with_empty_query s c :
  snd (delete s c []) = count s c None /\
  find (fst (delete s c [])) c None = [] /\
  count (fst (delete s c [])) c None = 0%Z.
Proof.
  unfold count, find, delete.
  destruct (Dict.get c (data s)) as [docs|] eqn:E; simpl.
  - rewrite filter_none by reflexivity. simpl. rewrite Z.sub_0_r.
    destruct (0 <? Z.of_nat (length docs))%Z; simpl;
      rewrite ?save_data; simpl; rewrite get_set_eq; auto.
  - rewrite E. auto.
Qed.

(** ** What [update] writes *)

Section UpdateWrites.
Variable now : nat -> float.

Lemma update_loop_keeps_key key q p :
  ~ In key (Dict.keys p) -> key <> "_modified" ->
  forall docs h t n l,
    Dict.get key (deref (fst (fst (update_loop now docs q p h t n))) l)
    = Dict.get key (deref h l).
Proof.
  intros Hp Hm. induction docs as [|d r IH]; intros h t n l; simpl; [reflexivity|].
  destruct (query_match (deref h d) q); [|apply IH].
  rewrite IH. destruct (Nat.eq_dec d l) as [->|Hne].
  - rewrite deref_insert_eq, get_set_ne by congruence.
    now apply get_update_other.
  - now rewrite deref_insert_ne.
Qed.

Lemma update_heap s c q p :
  heap (fst (update now s c q p))
  = match Dict.get c (data s) with
    | None => heap s
    | Some docs => fst (fst (update_loop now docs q p (heap s) (tick s) 0))
    end.
Proof.
  unfold update. destruct (Dict.get c (data s)) as [docs|]; [|reflexivity].
  destruct (update_loop now docs q p (heap s) (tick s) 0) as [[h t] n].
  destruct (0 <? n)%Z; simpl; rewrite ?save_heap; reflexivity.
Qed.

Lemma update_keeps_key s c q p key l :
  ~ In key (Dict.keys p) -> key <> "_modified" ->
  Dict.get key (deref (heap (fst (update now s c q p))) l)
  = Dict.get key (deref (heap s) l).
Proof.
  intros Hp Hm. rewrite update_heap.
  destruct (Dict.get c (data s)); [|reflexivity].
  now apply update_loop_keeps_key.
Qed.
End UpdateWrites.

(** C1, as the code has it.  [update] leaves the [_id] of every document as
    it was when the patch has no key [_id], and its [_created] when the
    patch has no key [_created]. *)
Theorem update_keeps_unpatched_reserved (now : nat -> float) s c q p l :
  (~ In "_id" (Dict.keys p) ->
   Dict.get "_id" (deref (heap (fst (update now s c q p))) l)
   = Dict.get "_id" (deref (heap s) l)) /\
  (~ In "_created" (Dict.keys p) ->
   Dict.get "_created" (deref (heap (fst (update now s c q p))) l)
   = Dict.get "_created" (deref (heap s) l)).
Proof.
  split; intros H; apply update_keeps_key; auto; discriminate.
Qed.

(** C1 fails as stated: a patch holding [_id] replaces the identifier of
    the document it matches. *)
Lemma update_forges_id :
  ~ update_keeps_reserved Sample.ticking_clock Sample.users "users"
      [("name", VStr "Alice")] [("_id", VStr "forged")].
Proof.
  intros H. destruct (H 0) as [Hid _].
  - vm_compute. now left.
  - vm_compute in Hid. discriminate.
Qed.

(** ** Matching *)

Lemma query_match_holds doc q : query_match doc q = true <-> query_holds doc q.
Proof.
  unfold query_holds. induction q as [|[k v] r IH]; simpl.
  - split; [intros _ ? ? [] | reflexivity].
  - destruct (Dict.get k doc) as [w|] eqn:E.
    + unfold py_ne. destruct (py_eq w v) eqn:Ew; simpl.
      * rewrite IH. split.
        -- intros H key v' [Heq|Hin]; [injection Heq as <- <-; eauto | eauto].
        -- intros H key v' Hin. apply H. now right.
      * split; [discriminate|]. intros H.
        destruct (H k v (or_introl eq_refl)) as (w' & Hw & Heq). congruence.
    + split; [discriminate|]. intros H.
      destruct (H k v (or_introl eq_refl)) as (w' & Hw & _). congruence.
Qed.

Lemma py_eq_kind a b : py_eq a b = true -> kind_of a = kind_of b.
Proof. destruct a, b; try reflexivity; simpl; discriminate. Qed.

(** C3, as the code has it.  [find] with a query returns a document iff it
    is a document of the collection that holds, for every pair of the
    query, the key with a value equal to the queried one under [==]; equal
    values are of the same kind, where booleans, integers and floats form
    the one kind of numbers, so that an integer never equals a string. *)
Theorem find_exact_up_to_numeric_kind s c q l :
  (In l (find s c (Some q)) <->
   In l (collection s c) /\ query_holds (deref (heap s) l) q) /\
  (forall w v, py_eq w v = true -> kind_of w = kind_of v) /\
  (forall z t, py_eq (VInt z) (VStr t) = false /\ py_eq (VStr t) (VInt z) = false).
Proof.
  split; [|split; [exact py_eq_kind | split; reflexivity]].
  unfold find, collection. destruct (Dict.get c (data s)) as [docs|]; simpl.
  - rewrite filter_In, query_match_holds. reflexivity.
  - tauto.
Qed.

(** C3 fails as stated: the query [{"active": 1}] finds the document whose
    field [active] is [True]. *)
Lemma find_matches_bool_with_int :
  ~ find_type_sensitive Sample.users "users" [("active", VInt 1)].
Proof.
  intros H.
  destruct (H 0 ltac:(vm_compute; now left) "active" (VInt 1) (or_introl eq_refl))
    as (w & Hw & Ht).
  vm_compute in Hw. injection Hw as <-. discriminate.
Qed.

(** The test of [delete] and the loop of [find] agree on a document that
    holds every queried key; they can differ only through a missing key. *)
Lemma delete_match_with_keys doc q :
  (forall key, In key (Dict.keys q) -> Dict.mem key doc = true) ->
  delete_match doc q = query_match doc q.
Proof.
  induction q as [|[k v] r IH]; intros H; simpl; [reflexivity|].
  assert (Hk : Dict.mem k doc = true) by (apply H; now left).
  apply mem_get in Hk as [w Hw].
  unfold dict_get_or_none, py_ne. simpl. rewrite Hw. simpl.
  destruct (py_eq w v); simpl; [|reflexivity].
  apply IH. intros key Hin. apply H. now right.
Qed.

(** C2 at the failing input: no document of [users] has a key [nickname];
    [find] with [{"nickname": None}] returns nothing, [delete] with the
    same query passes both documents, takes them out and returns 2. *)
Theorem delete_null_query_diverges :
  find Sample.users "users" (Some [("nickname", VNone)]) = [] /\
  delete_matched Sample.users "users" [("nickname", VNone)] = [0; 1] /\
  snd (delete Sample.users "users" [("nickname", VNone)]) = 2%Z /\
  find (fst (delete Sample.users "users" [("nickname", VNone)])) "users" None = [].
Proof. repeat split; vm_compute; reflexivity. Qed.

(** ** Aliasing between the caller and the engine *)

Lemma find_in_collection s c oq l : In l (find s c oq) -> In l (collection s c).
Proof.
  unfold find, collection. destruct (Dict.get c (data s)) as [docs|]; simpl; [|tauto].
  destruct oq as [q|]; [|tauto]. rewrite filter_In. tauto.
Qed.

(** C4, as the code has it.  What [find] returns are the stored objects
    themselves: writing a field of a returned document leaves the table of
    collections, the file and the trace of saves as they were, and the
    document as written is what later calls of [find] show. *)
Theorem find_returns_stored_objects s c oq l key v :
  In l (find s c oq) ->
  let s' := py_setitem s l key v in
  In l (collection s c) /\
  data s' = data s /\ disk s' = disk s /\ log s' = log s /\
  deref (heap s') l = Dict.set key v (deref (heap s) l) /\
  In (Dict.set key v (deref (heap s) l)) (view s' c None).
Proof.
  intros Hin. pose proof (find_in_collection _ _ _ _ Hin) as Hc. simpl.
  assert (Hd : deref (heap (py_setitem s l key v)) l
               = Dict.set key v (deref (heap s) l))
    by (unfold py_setitem; simpl; apply deref_insert_eq).
  repeat split; auto.
  unfold view, contents. rewrite <- Hd.
  apply in_map. unfold find. unfold collection in Hc. simpl.
  destruct (Dict.get c (data s)); [exact Hc | destruct Hc].
Qed.

(** C4 fails as stated: after the caller writes [age] into the first
    document [find] returned, [find] shows the new value. *)
Lemma find_results_are_aliases :
  ~ find_results_isolated Sample.users "users" None.
Proof.
  intros H.
  specialize (H 0 "age" (VInt 99) ltac:(vm_compute; now left) "users" None).
  vm_compute in H. discriminate.
Qed.

(** ** What each call does to the table and to the objects *)

Lemma contents_ext (h h' : gmap loc dict) ls :
  (forall l, In l ls -> deref h' l = deref h l) -> contents h' ls = contents h ls.
Proof. intros H. unfold contents. apply map_ext_in. exact H. Qed.

Lemma create_collection_heap s c : heap (create_collection s c) = heap s.
Proof.
  unfold create_collection. destruct (Dict.mem c (data s)); [reflexivity|].
  now rewrite save_heap.
Qed.

Lemma create_collection_tick s c : tick (create_collection s c) = tick s.
Proof.
  unfold create_collection. destruct (Dict.mem c (data s)); [reflexivity|].
  now rewrite save_tick.
Qed.

Lemma create_collection_get s c :
  Dict.get c (data (create_collection s c)) = Some (collection s c).
Proof.
  unfold create_collection, collection.
  destruct (Dict.mem c (data s)) eqn:E.
  - apply mem_get in E as [v ->]. reflexivity.
  - apply mem_false in E. rewrite save_data. simpl. rewrite E.
    now apply get_snoc_eq.
Qed.

Lemma create_collection_get_ne s c c' :
  c' <> c -> Dict.get c' (data (create_collection s c)) = Dict.get c' (data s).
Proof.
  intros Hne. unfold create_collection.
  destruct (Dict.mem c (data s)); [reflexivity|].
  rewrite save_data. simpl. apply get_snoc_ne. congruence.
Qed.

Lemma collection_get s c ls : Dict.get c (data s) = Some ls -> collection s c = ls.
Proof. unfold collection. now intros ->. Qed.

Lemma collection_ext s s' c :
  Dict.get c (data s') = Dict.get c (data s) -> collection s' c = collection s c.
Proof. unfold collection. now intros ->. Qed.

Section Calls.
Variable now : nat -> float.

Lemma insert_ok s c l us :
  id_reading now (tick s) = Ok us ->
  let s' := fst (insert now s c l) in
  snd (insert now s c l) = Ok (py_str us) /\
  heap s' = <[l := stamped now (tick s) (py_str us) (deref (heap s) l)]> (heap s) /\
  tick s' = S (S (S (tick s))) /\
  Dict.get c (data s') = Some (collection s c ++ [l]) /\
  (forall c', c' <> c -> Dict.get c' (data s') = Dict.get c' (data s)).
Proof.
  intros Hus. unfold insert, id_reading in *.
  rewrite create_collection_tick, Hus. simpl.
  rewrite save_heap, save_tick, save_data. simpl.
  rewrite create_collection_heap.
  repeat split.
  - rewrite get_set_eq.
    now rewrite (collection_get _ _ _ (create_collection_get s c)).
  - intros c' Hne. rewrite get_set_ne by congruence.
    now apply create_collection_get_ne.
Qed.

Lemma insert_raised s c l e :
  id_reading now (tick s) = Raised e ->
  let s' := fst (insert now s c l) in
  snd (insert now s c l) = Raised e /\
  heap s' = heap s /\ tick s' = S (tick s) /\
  data s' = data (create_collection s c).
Proof.
  intros Hus. unfold insert, id_reading in *.
  rewrite create_collection_tick, Hus. simpl.
  rewrite create_collection_heap. auto.
Qed.

Lemma insert_get_ne s c c' l :
  c' <> c -> Dict.get c' (data (fst (insert now s c l))) = Dict.get c' (data s).
Proof.
  intros Hne. destruct (id_reading now (tick s)) as [us|e] eqn:E.
  - now apply (insert_ok s c l us E).
  - destruct (insert_raised s c l e E) as (_ & _ & _ & ->).
    now apply create_collection_get_ne.
Qed.

Lemma insert_deref_ne s c l l' :
  l' <> l -> deref (heap (fst (insert now s c l))) l' = deref (heap s) l'.
Proof.
  intros Hne. destruct (id_reading now (tick s)) as [us|e] eqn:E.
  - destruct (insert_ok s c l us E) as (_ & -> & _).
    apply deref_insert_ne. congruence.
  - now destruct (insert_raised s c l e E) as (_ & -> & _).
Qed.

Lemma update_data s c q p : data (fst (update now s c q p)) = data s.
Proof.
  unfold update. destruct (Dict.get c (data s)) as [docs|]; [|reflexivity].
  destruct (update_loop now docs q p (heap s) (tick s) 0) as [[h t] n].
  destruct (0 <? n)%Z; simpl; rewrite ?save_data; reflexivity.
Qed.

Lemma update_loop_deref_out docs q p h t n l :
  ~ In l docs ->
  deref (fst (fst (update_loop now docs q p h t n))) l = deref h l.
Proof.
  revert h t n. induction docs as [|d r IH]; intros h t n Hl; simpl in *; [reflexivity|].
  destruct (query_match (deref h d) q).
  - rewrite IH by tauto. apply deref_insert_ne. tauto.
  - apply IH. tauto.
Qed.

Lemma update_deref_out s c q p l :
  ~ In l (collection s c) ->
  deref (heap (fst (update now s c q p))) l = deref (heap s) l.
Proof.
  intros Hl. rewrite update_heap. unfold collection in Hl.
  destruct (Dict.get c (data s)); [|reflexivity].
  now apply update_loop_deref_out.
Qed.

Lemma delete_heap s c q : heap (fst (delete s c q)) = heap s.
Proof.
  unfold delete. destruct (Dict.get c (data s)) as [docs|]; [|reflexivity].
  match goal with |- context [if ?b then _ else _] => destruct b end;
    simpl; rewrite ?save_heap; reflexivity.
Qed.

Lemma delete_get_ne s c c' q :
  c' <> c -> Dict.get c' (data (fst (delete s c q))) = Dict.get c' (data s).
Proof.
  intros Hne. unfold delete.
  destruct (Dict.get c (data s)) as [docs|]; [|reflexivity].
  match goal with |- context [if ?b then _ else _] => destruct b end;
    simpl; rewrite ?save_data; simpl; apply get_set_ne; congruence.
Qed.

Lemma drop_heap s c : heap (fst (drop_collection s c)) = heap s.
Proof.
  unfold drop_collection. destruct (Dict.mem c (data s)); simpl;
    rewrite ?save_heap; reflexivity.
Qed.

Lemma drop_get_ne s c c' :
  c' <> c -> Dict.get c' (data (fst (drop_collection s c))) = Dict.get c' (data s).
Proof.
  intros Hne. unfold drop_collection. destruct (Dict.mem c (data s)); simpl;
    rewrite ?save_data; simpl; [apply get_del_ne; congruence | reflexivity].
Qed.
End Calls.

(** C10, as the code has it.  A call on collection [c] leaves the sequence
    of document objects of every other collection as it was.  Read by
    value, the other collection is unchanged by [delete] and
    [drop_collection]; by [insert] when the inserted object is not one of
    its documents; by [update] when no document of [c] is one of its
    documents. *)
Theorem other_collections_framed (now : nat -> float) s c c' :
  c' <> c ->
  (forall l,
     let s' := fst (insert now s c l) in
     Dict.get c' (data s') = Dict.get c' (data s) /\
     (~ In l (collection s c') ->
      contents (heap s') (collection s' c') = contents (heap s) (collection s c'))) /\
  (forall q p,
     let s' := fst (update now s c q p) in
     Dict.get c' (data s') = Dict.get c' (data s) /\
     ((forall l, In l (collection s c) -> ~ In l (collection s c')) ->
      contents (heap s') (collection s' c') = contents (heap s) (collection s c'))) /\
  (forall q,
     let s' := fst (delete s c q) in
     Dict.get c' (data s') = Dict.get c' (data s) /\
     contents (heap s') (collection s' c') = contents (heap s) (collection s c')) /\
  (let s' := fst (drop_collection s c) in
   Dict.get c' (data s') = Dict.get c' (data s) /\
   contents (heap s') (collection s' c') = contents (heap s) (collection s c')).
Proof.
  intros Hne. repeat split.
  - now apply insert_get_ne.
  - intros Hl. rewrite (collection_ext s _ c') by now apply insert_get_ne.
    apply contents_ext. intros l' Hl'. apply insert_deref_ne. congruence.
  - now rewrite update_data.
  - intros Hdisj. rewrite (collection_ext s _ c') by now rewrite update_data.
    apply contents_ext. intros l Hl. apply update_deref_out.
    intros Hc. exact (Hdisj l Hc Hl).
  - now apply delete_get_ne.
  - rewrite (collection_ext s _ c') by now apply delete_get_ne.
    now rewrite delete_heap.
  - now apply drop_get_ne.
  - rewrite (collection_ext s _ c') by now apply drop_get_ne.
    now rewrite drop_heap.
Qed.

(** C10 fails as stated: inserting into [admins] the object that is
    already a document of [users] rewrites the reserved fields of that
    document of [users]. *)
Lemma insert_shared_object_changes_other_collection :
  ~ others_unchanged Sample.users
      (fst (insert Sample.ticking_clock Sample.users "admins" 0)) "admins".
Proof.
  intros H. specialize (H "users" ltac:(discriminate)).
  vm_compute in H. discriminate.
Qed.

(** ** Identifiers *)

Lemma py_str_inj a b : py_str a = py_str b -> a = b.
Proof.
  unfold py_str. intros H.
  apply (f_equal NilEmpty.int_of_string) in H.
  rewrite !NilEmpty.isi in H. injection H as H.
  apply (f_equal Z.of_int) in H. now rewrite !DecimalZ.of_to in H.
Qed.

Lemma NoDup_map_inj {A B} (f : A -> B) (l : list A) :
  (forall x y, f x = f y -> x = y) -> NoDup l -> NoDup (map f l).
Proof.
  intros Hf. induction 1 as [|x l Hx Hl IH]; simpl; constructor; auto.
  rewrite list_elem_of_In. intros Hin. apply in_map_iff in Hin as (y & Hy & Hin).
  apply Hf in Hy. subst y. apply Hx. now apply list_elem_of_In.
Qed.

Lemma NoDup_app_In {A} (l k : list A) :
  NoDup l -> NoDup k -> (forall x, In x k -> ~ In x l) -> NoDup (l ++ k).
Proof.
  intros Hl Hk Hd. induction Hl as [|x l Hx Hl IH]; simpl; [exact Hk|].
  constructor.
  - rewrite list_elem_of_In, in_app_iff. intros [H|H].
    + apply Hx. now apply list_elem_of_In.
    + apply (Hd x H). now left.
  - apply IH. intros y Hy Hin. apply (Hd y Hy). now right.
Qed.

Lemma id_ticks_succ t n : id_ticks t (S n) = t :: id_ticks (S (S (S t))) n.
Proof.
  unfold id_ticks. simpl. f_equal; [lia|].
  rewrite <- seq_shift, map_map. apply map_ext. intros i. lia.
Qed.

Section Identifiers.
Variable now : nat -> float.

Lemma insert_all_cons s c l r :
  insert_all now s c (l :: r)
  = (fst (insert_all now (fst (insert now s c l)) c r),
     snd (insert now s c l) :: snd (insert_all now (fst (insert now s c l)) c r)).
Proof.
  simpl. destruct (insert now s c l) as [s1 res]. simpl.
  now destruct (insert_all now s1 c r).
Qed.

Lemma stamped_id t doc_id d :
  Dict.get "_id" (stamped now t doc_id d) = Some (VStr doc_id).
Proof.
  unfold stamped. rewrite !get_set_ne by discriminate. apply get_set_eq.
Qed.

(** One insert of an object that is not yet a document of the collection
    appends its identifier to those stored. *)
Lemma insert_stored_ids s c l us :
  id_reading now (tick s) = Ok us ->
  ~ In l (collection s c) ->
  stored_ids (fst (insert now s c l)) c
  = stored_ids s c ++ [Some (VStr (py_str us))].
Proof.
  intros Hus Hl. destruct (insert_ok now s c l us Hus) as (_ & Hh & _ & Hc & _).
  unfold stored_ids. rewrite (collection_get _ _ _ Hc), Hh, map_app. simpl.
  rewrite deref_insert_eq, stamped_id. f_equal.
  apply map_ext_in. intros l' Hl'. rewrite deref_insert_ne; [reflexivity|].
  congruence.
Qed.

Lemma insert_all_ids docs : forall s c us,
  map (id_reading now) (id_ticks (tick s) (length docs)) = map Ok us ->
  snd (insert_all now s c docs) = map Ok (map py_str us) /\
  (NoDup docs -> (forall l, In l docs -> ~ In l (collection s c)) ->
   stored_ids (fst (insert_all now s c docs)) c
   = stored_ids s c ++ map (fun doc_id => Some (VStr doc_id)) (map py_str us)).
Proof.
  induction docs as [|l r IH]; intros s c us Hus.
  - destruct us; [|discriminate]. simpl. split; [reflexivity|].
    intros _ _. now rewrite app_nil_r.
  - simpl length in Hus. rewrite id_ticks_succ in Hus.
    destruct us as [|u us']; [discriminate|]. simpl in Hus.
    injection Hus as Hu Hrest.
    destruct (insert_ok now s c l u Hu) as (Hres & _ & Ht & Hc & _).
    rewrite insert_all_cons. simpl fst. simpl snd.
    rewrite <- Ht in Hrest.
    destruct (IH (fst (insert now s c l)) c us' Hrest) as [IHres IHids].
    split.
    + now rewrite Hres, IHres.
    + intros Hnd Hfresh. inversion Hnd as [|x y Hlr Hr]; subst.
      rewrite list_elem_of_In in Hlr.
      rewrite IHids; [| exact Hr |].
      * rewrite (insert_stored_ids s c l u Hu) by (apply Hfresh; now left).
        now rewrite <- app_assoc.
      * intros l' Hl'. rewrite (collection_get _ _ _ Hc), in_app_iff.
        intros [Hin|[<-|[]]]; [|contradiction].
        apply (Hfresh l'); [now right | exact Hin].
Qed.
End Identifiers.

(** C8, as the code has it.  When the clock readings the identifiers are
    taken from differ pairwise in their whole number of microseconds, the
    inserts into one collection return pairwise distinct identifiers; when
    moreover the objects inserted are pairwise distinct and none is already
    a document of the collection, the identifiers stored in the collection
    are those it held followed by the returned ones, and they are unique if
    those it held were unique and none of them is returned again. *)
Theorem distinct_readings_give_distinct_ids (now : nat -> float) s c docs us :
  map (id_reading now) (id_ticks (tick s) (length docs)) = map Ok us ->
  NoDup us ->
  let s' := fst (insert_all now s c docs) in
  let ids := map py_str us in
  snd (insert_all now s c docs) = map Ok ids /\
  NoDup ids /\
  (NoDup docs -> (forall l, In l docs -> ~ In l (collection s c)) ->
   stored_ids s' c = stored_ids s c ++ map (fun doc_id => Some (VStr doc_id)) ids /\
   (NoDup (stored_ids s c) ->
    (forall doc_id, In doc_id ids -> ~ In (Some (VStr doc_id)) (stored_ids s c)) ->
    NoDup (stored_ids s' c))).
Proof.
  intros Hus Hnd. simpl.
  destruct (insert_all_ids now docs s c us Hus) as [Hres Hids].
  assert (Hn : NoDup (map py_str us)) by (apply NoDup_map_inj; auto using py_str_inj).
  repeat split; auto.
  intros Hold Hnew. rewrite Hids by assumption.
  apply NoDup_app_In; auto.
  - apply NoDup_map_inj; [congruence | exact Hn].
  - intros x Hx. apply in_map_iff in Hx as (doc_id & <- & Hin). now apply Hnew.
Qed.

(** C8 fails as stated: on a clock that gives two inserts the same reading,
    both return the same identifier. *)
Lemma coarse_clock_repeats_id :
  ~ ids_pairwise_distinct Sample.coarse_clock (fresh Sample.objects true)
      "users" [0; 1].
Proof.
  intros H. vm_compute in H. inversion H as [|x l Hx Hl]; subst.
  apply Hx. apply list_elem_of_In. now left.
Qed.

(** ** Timestamps *)

Section Timestamps.
Variable now : nat -> float.







End Timestamps.

(** ** The invariant of the reachable states *)

Section Invariant.
Variable now : nat -> float.




Lemma create_collection_collection s c c' :
  collection (create_collection s c) c' = collection s c'.
Proof.
  destruct (String.eqb_spec c' c) as [->|Hne].
  - apply collection_get, create_collection_get.
  - apply collection_ext. now apply create_collection_get_ne.
Qed.

Lemma create_collection_keys s c :
  NoDup (Dict.keys (data s)) ->
  NoDup (Dict.keys (data (create_collection s c))).
Proof.
  intros H. unfold create_collection.
  destruct (Dict.mem c (data s)) eqn:E; [exact H|].
  rewrite save_data. simpl. rewrite keys_snoc.
  apply NoDup_snoc_key; [|exact H].
  now apply get_none_keys, mem_false.
Qed.


Lemma insert_keys s c l :
  NoDup (Dict.keys (data s)) ->
  NoDup (Dict.keys (data (fst (insert now s c l)))).
Proof.
  intros H. unfold insert.
  destruct (py_int _) as [us|e]; simpl.
  - rewrite save_data. simpl. rewrite keys_set.
    replace (Dict.mem c (data (create_collection s c))) with true.
    + now apply create_collection_keys.
    + symmetry. apply mem_get. eexists. apply create_collection_get.
  - now apply create_collection_keys.
Qed.

Lemma stamped_created t doc_id d :
  Dict.get "_created" (stamped now t doc_id d) = Some (VFloat (now (S t))).
Proof.
  unfold stamped. rewrite get_set_ne by discriminate. apply get_set_eq.
Qed.

Lemma stamped_modified t doc_id d :
  Dict.get "_modified" (stamped now t doc_id d) = Some (VFloat (now (S (S t)))).
Proof. unfold stamped. apply get_set_eq. Qed.




Lemma delete_data s c q :
  data (fst (delete s c q))
  = match Dict.get c (data s) with
    | None => data s
    | Some docs =>
        Dict.set c (List.filter
                      (fun doc => negb (delete_match (deref (heap s) doc) q)) docs)
                 (data s)
    end.
Proof.
  unfold delete. destruct (Dict.get c (data s)) as [docs|]; [|reflexivity].
  match goal with |- context [if ?b then _ else _] => destruct b end;
    simpl; rewrite ?save_data; reflexivity.
Qed.






End Invariant.



(** ** The repository's tests, replayed on the embedding *)

(** [test_basic_operations] of [test_farndb.py]. *)
Example replay_test_basic_operations :
  snd (insert Sample.ticking_clock (fresh Sample.objects true) "test" 4)
  = Ok "1730000000000000" /\
  length (find Sample.inserted "test" None) = 1 /\
  find_one Sample.inserted "test" [("name", VStr "Test User")] = Some 4 /\
  Dict.get "value" (deref (heap Sample.inserted) 4) = Some (VInt 42) /\
  snd (update Sample.ticking_clock Sample.inserted "test"
         [("name", VStr "Test User")] [("value", VInt 100)]) = 1%Z /\
  Dict.get "value" (deref (heap Sample.updated) 4) = Some (VInt 100) /\
  count Sample.updated "test" None = 1%Z /\
  snd (delete Sample.updated "test" [("name", VStr "Test User")]) = 1%Z /\
  count Sample.deleted "test" None = 0%Z /\
  list_collections Sample.three_collections
  = ["test"; "collection1"; "collection2"] /\
  snd (drop_collection Sample.three_collections "collection1") = true /\
  list_collections Sample.dropped = ["test"; "collection2"].
Proof. repeat split; vm_compute; reflexivity. Qed.

(** [test_persistence]: after the inserts the file holds the two documents
    in order, as the memory has them. *)
Example replay_test_persistence :
  disk Sample.users = Some (dump Sample.users) /\
  map (fun docs => map (Dict.get "name") docs) (map snd (dump Sample.users))
  = [[Some (VStr "Alice"); Some (VStr "Bob")]].
Proof. split; vm_compute; reflexivity. Qed.

(** ** The theorems at the sample data *)

Lemma missing_collection_is_not_an_error_witness :
  Dict.get "ghosts" (data Sample.users) = None /\
  find Sample.users "ghosts" None = [] /\
  count Sample.users "ghosts" None = 0%Z /\
  update Sample.ticking_clock Sample.users "ghosts" [] [("age", VInt 1)]
  = (Sample.users, 0%Z) /\
  delete Sample.users "ghosts" [] = (Sample.users, 0%Z).
Proof.
  split; [vm_compute; reflexivity|].
  apply (missing_collection_is_not_an_error Sample.ticking_clock Sample.users
           "ghosts" None [] [("age", VInt 1)]).
  vm_compute; reflexivity.
Defined.

Lemma update_keeps_unpatched_reserved_witness :
  Dict.get "_id"
    (deref (heap (fst (update Sample.ticking_clock Sample.users "users"
                         [("name", VStr "Alice")] [("age", VInt 31)]))) 0)
  = Some (VStr "1730000000000000") /\
  Dict.get "_created"
    (deref (heap (fst (update Sample.ticking_clock Sample.users "users"
                         [("name", VStr "Alice")] [("age", VInt 31)]))) 0)
  = Some (VFloat 1730000000.125).
Proof.
  destruct (update_keeps_unpatched_reserved Sample.ticking_clock Sample.users
              "users" [("name", VStr "Alice")] [("age", VInt 31)] 0) as [Hid Hc].
  split.
  - rewrite Hid; [vm_compute; reflexivity|].
    simpl. intros [H|[]]. discriminate.
  - rewrite Hc; [vm_compute; reflexivity|].
    simpl. intros [H|[]]. discriminate.
Defined.

Lemma find_exact_up_to_numeric_kind_witness :
  In 0 (find Sample.users "users" (Some [("age", VFloat 30)])) /\
  kind_of (VInt 30) = kind_of (VFloat 30).
Proof.
  destruct (find_exact_up_to_numeric_kind Sample.users "users"
              [("age", VFloat 30)] 0) as (Hfind & Hkind & _).
  split.
  - apply Hfind. split; [vm_compute; now left|].
    intros key v [Heq|[]]. injection Heq as <- <-.
    exists (VInt 30). split; vm_compute; reflexivity.
  - apply Hkind. vm_compute; reflexivity.
Defined.

Lemma find_returns_stored_objects_witness :
  In 0 (find Sample.users "users" (Some [("name", VStr "Alice")])) /\
  In (Dict.set "age" (VInt 99) (deref (heap Sample.users) 0))
     (view (py_setitem Sample.users 0 "age" (VInt 99)) "users" None).
Proof.
  assert (H : In 0 (find Sample.users "users" (Some [("name", VStr "Alice")])))
    by (vm_compute; now left).
  split; [exact H|].
  apply (find_returns_stored_objects Sample.users "users"
           (Some [("name", VStr "Alice")]) 0 "age" (VInt 99) H).
Defined.

Lemma other_collections_framed_witness :
  contents (heap (fst (insert Sample.ticking_clock Sample.users_and_admins "admins" 3)))
           (collection (fst (insert Sample.ticking_clock Sample.users_and_admins
                               "admins" 3)) "users")
  = contents (heap Sample.users_and_admins)
             (collection Sample.users_and_admins "users") /\
  contents (heap (fst (update Sample.ticking_clock Sample.users_and_admins "admins"
                         [] [("role", VStr "root")])))
           (collection (fst (update Sample.ticking_clock Sample.users_and_admins
                               "admins" [] [("role", VStr "root")])) "users")
  = contents (heap Sample.users_and_admins)
             (collection Sample.users_and_admins "users").
Proof.
  assert (Hne : "users" <> "admins") by discriminate.
  destruct (other_collections_framed Sample.ticking_clock Sample.users_and_admins
              "admins" "users" Hne) as (Hi & Hu & _ & _).
  split.
  - apply (Hi 3). vm_compute. intros [H|[H|[]]]; discriminate.
  - apply (Hu [] [("role", VStr "root")]).
    vm_compute. intros l [<-|[]] [H|[H|[]]]; discriminate.
Defined.

Lemma distinct_readings_give_distinct_ids_witness :
  snd (insert_all Sample.ticking_clock (fresh Sample.objects true) "users" [0; 1])
  = [Ok "1730000000000000"; Ok "1730000000375000"] /\
  NoDup (stored_ids
           (fst (insert_all Sample.ticking_clock (fresh Sample.objects true)
                   "users" [0; 1])) "users").
Proof.
  assert (Hus : map (id_reading Sample.ticking_clock)
                    (id_ticks (tick (fresh Sample.objects true)) (length [0; 1]))
                = map Ok [1730000000000000%Z; 1730000000375000%Z])
    by (vm_compute; reflexivity).
  assert (Hnd : NoDup [1730000000000000%Z; 1730000000375000%Z]).
  { repeat constructor; rewrite list_elem_of_In; simpl; intuition discriminate. }
  destruct (distinct_readings_give_distinct_ids Sample.ticking_clock
              (fresh Sample.objects true) "users" [0; 1] _ Hus Hnd)
    as (Hres & _ & Hstored).
  split; [exact Hres|].
  destruct Hstored as [_ Huniq].
  - repeat constructor; rewrite list_elem_of_In; simpl; intuition discriminate.
  - intros l _ [].
  - apply Huniq; [constructor|]. intros doc_id _ [].
Defined.



(** * Further properties of the engine *)

(** ** [insert] *)

Lemma find_all s c : find s c None = collection s c.
Proof. unfold find, collection. now destruct (Dict.get c (data s)). Qed.

Lemma py_eq_str_refl t : py_eq (VStr t) (VStr t) = true.
Proof. simpl. apply String.eqb_refl. Qed.

(** X1.  A successful [insert] puts the object at the end of the
    collection: [find] without a query returns what it returned before
    followed by the inserted document, and [count] grows by one. *)
Theorem insert_appends (now : nat -> float) s c l us :
  id_reading now (tick s) = Ok us ->
  let s' := fst (insert now s c l) in
  snd (insert now s c l) = Ok (py_str us) /\
  find s' c None = find s c None ++ [l] /\
  count s' c None = (count s c None + 1)%Z.
Proof.
  intros Hus. destruct (insert_ok now s c l us Hus) as (Hres & _ & _ & Hc & _).
  simpl. split; [exact Hres|].
  assert (Hf : find (fst (insert now s c l)) c None = find s c None ++ [l]).
  { rewrite !find_all. now apply collection_get. }
  split; [exact Hf|].
  unfold count. rewrite Hf, length_app. simpl. lia.
Qed.

(** X2.  After a successful [insert] the document is found by the returned
    identifier, its three reserved fields are the engine's whatever the
    caller had put there, and every other field is as the caller gave it. *)
Theorem insert_then_find_by_id (now : nat -> float) s c l us :
  id_reading now (tick s) = Ok us ->
  let s' := fst (insert now s c l) in
  In l (find s' c (Some [("_id", VStr (py_str us))])) /\
  Dict.get "_id" (deref (heap s') l) = Some (VStr (py_str us)) /\
  Dict.get "_created" (deref (heap s') l) = Some (VFloat (now (S (tick s)))) /\
  Dict.get "_modified" (deref (heap s') l) = Some (VFloat (now (S (S (tick s))))) /\
  (forall key, key <> "_id" -> key <> "_created" -> key <> "_modified" ->
     Dict.get key (deref (heap s') l) = Dict.get key (deref (heap s) l)).
Proof.
  intros Hus. destruct (insert_ok now s c l us Hus) as (_ & Hh & _ & Hc & _).
  simpl.
  assert (Hd : deref (heap (fst (insert now s c l))) l
               = stamped now (tick s) (py_str us) (deref (heap s) l))
    by (rewrite Hh; apply deref_insert_eq).
  assert (Hid : Dict.get "_id" (deref (heap (fst (insert now s c l))) l)
                = Some (VStr (py_str us)))
    by (rewrite Hd; apply stamped_id).
  repeat split.
  - unfold find. rewrite Hc. apply filter_In. split.
    + apply in_app_iff. right. now left.
    + simpl. rewrite Hid. unfold py_ne. now rewrite py_eq_str_refl.
  - exact Hid.
  - rewrite Hd. apply stamped_created.
  - rewrite Hd. apply stamped_modified.
  - intros key H1 H2 H3. rewrite Hd. unfold stamped.
    now rewrite !get_set_ne by congruence.
Qed.

(** ** [find], [find_one] and the [find] command *)

Lemma filter_sublist {A} (f : A -> bool) (l : list A) :
  sublist (List.filter f l) l.
Proof.
  induction l as [|a r IH]; simpl; [constructor|].
  destruct (f a); now constructor.
Qed.

(** X3.  [find] with the empty query returns the same documents as [find]
    without a query, and [find] with any query returns a subsequence of
    them: the matching documents in insertion order. *)
Theorem find_keeps_insertion_order s c q :
  find s c (Some []) = find s c None /\
  sublist (find s c (Some q)) (find s c None).
Proof.
  unfold find. destruct (Dict.get c (data s)) as [docs|]; split;
    try constructor.
  - now apply filter_all.
  - apply filter_sublist.
Qed.

Lemma filter_first {A} (f : A -> bool) (l : list A) x r :
  List.filter f l = x :: r ->
  exists pre post, l = pre ++ x :: post /\ f x = true /\
                   forall y, In y pre -> f y = false.
Proof.
  induction l as [|a l' IH]; simpl; [discriminate|].
  destruct (f a) eqn:E.
  - intros H. injection H as <- _. exists [], l'. repeat split; auto.
    intros y [].
  - intros H. destruct (IH H) as (pre & post & -> & Hx & Hpre).
    exists (a :: pre), post. repeat split; auto.
    intros y [<-|Hy]; auto.
Qed.

(** X4.  [find_one] returns nothing exactly when [count] with the same
    query is 0; the document it returns otherwise is the first document of
    the collection, in insertion order, that satisfies the query. *)
Theorem find_one_first_match s c q :
  (find_one s c q = None <-> count s c (Some q) = 0%Z) /\
  (forall l, find_one s c q = Some l ->
     query_holds (deref (heap s) l) q /\
     exists pre post,
       collection s c = pre ++ l :: post /\
       forall l', In l' pre -> query_match (deref (heap s) l') q = false).
Proof.
  unfold find_one, count. split.
  - destruct (find s c (Some q)); simpl; split; congruence || lia.
  - intros l. unfold find, collection.
    destruct (Dict.get c (data s)) as [docs|]; simpl; [|discriminate].
    destruct (List.filter _ docs) as [|x r] eqn:E; [discriminate|].
    intros H. injection H as ->.
    destruct (filter_first _ _ _ _ E) as (pre & post & -> & Hl & Hpre).
    split; [now apply query_match_holds | eauto].
Qed.

Lemma py_slice_to_pos {A} (l : list A) n :
  (0 <= n)%Z -> py_slice_to l n = firstn (Z.to_nat n) l.
Proof. intros H. unfold py_slice_to. now destruct (Z.ltb_spec n 0); [lia|]. Qed.

(** X5.  The [find] command with [--limit n], [n] positive, prints the
    first [n] matching documents, or all of them when there are fewer;
    [--limit 0] prints all of them, like no limit; a negative limit prints
    the matching documents without the last [-n] of them, that is the
    first [len - (-n)], none when fewer than [-n] match. *)
Theorem cli_find_limit s c query n :
  let all := cli_find s c query None in
  ((0 < n)%Z ->
   cli_find s c query (Some n) = firstn (Z.to_nat n) all /\
   length (cli_find s c query (Some n)) = Nat.min (Z.to_nat n) (length all)) /\
  cli_find s c query (Some 0%Z) = all /\
  ((n < 0)%Z ->
   cli_find s c query (Some n) = firstn (length all - Z.to_nat (- n)) all /\
   all = cli_find s c query (Some n)
         ++ skipn (length all - Z.to_nat (- n)) all /\
   length (cli_find s c query (Some n)) = length all - Z.to_nat (- n)).
Proof.
  unfold cli_find. simpl. split; [|split].
  - intros Hn. destruct (Z.eqb_spec n 0); [lia|].
    rewrite py_slice_to_pos by lia. split; [reflexivity | apply length_firstn].
  - reflexivity.
  - intros Hn. destruct (Z.eqb_spec n 0); [lia|].
    set (all := find s c (Some match query with Some q => q | None => [] end)).
    assert (Hs : py_slice_to all n = firstn (length all - Z.to_nat (- n)) all).
    { unfold py_slice_to. destruct (Z.ltb_spec n 0); [|lia].
      f_equal. lia. }
    rewrite Hs. split; [reflexivity|]. split.
    + symmetry. apply firstn_skipn.
    + rewrite length_firstn. lia.
Qed.

(** ** [update] *)

Section UpdateEffects.
Variable now : nat -> float.




End UpdateEffects.





(** ** [delete] *)

Lemma filter_filter_negb {A} (f : A -> bool) (l : list A) :
  List.filter f (List.filter (fun x => negb (f x)) l) = [].
Proof.
  apply filter_none. intros x Hx. apply filter_In in Hx as [_ Hx].
  now destruct (f x).
Qed.

Lemma filter_length_split {A} (f : A -> bool) (l : list A) :
  length (List.filter f l) + length (List.filter (fun x => negb (f x)) l)
  = length l.
Proof.
  induction l as [|a r IH]; simpl; [reflexivity|].
  destruct (f a); simpl; lia.
Qed.

Lemma delete_collection s c q :
  collection (fst (delete s c q)) c
  = List.filter (fun doc => negb (delete_match (deref (heap s) doc) q))
                (collection s c).
Proof.
  unfold collection at 1. rewrite delete_data. unfold collection.
  destruct (Dict.get c (data s)) as [docs|] eqn:E; simpl.
  - now rewrite get_set_eq.
  - now rewrite E.
Qed.

(** X9.  After [delete] no document of the collection passes its test any
    more, and the same [delete] again returns 0 and changes nothing. *)
Theorem delete_twice s c q :
  let s1 := fst (delete s c q) in
  delete_matched s1 c q = [] /\ delete s1 c q = (s1, 0%Z).
Proof.
  simpl.
  assert (H : delete_matched (fst (delete s c q)) c q = []).
  { unfold delete_matched. rewrite delete_collection, delete_heap.
    apply filter_filter_negb. }
  split; [exact H | now apply delete_no_match].
Qed.

(** X10.  [delete] returns the number of documents that pass its test,
    which is [count] before the call minus [count] after it; the documents
    that stay are those that fail the test, in their order, and no object
    is written. *)
Theorem delete_accounting s c q :
  let s1 := fst (delete s c q) in
  snd (delete s c q) = Z.of_nat (length (delete_matched s c q)) /\
  snd (delete s c q) = (count s c None - count s1 c None)%Z /\
  find s1 c None
  = List.filter (fun doc => negb (delete_match (deref (heap s) doc) q))
                (find s c None) /\
  heap s1 = heap s.
Proof.
  simpl.
  assert (Hr : snd (delete s c q) = Z.of_nat (length (delete_matched s c q))).
  { unfold delete, delete_matched, collection.
    destruct (Dict.get c (data s)) as [docs|]; simpl; [|reflexivity].
    pose proof (filter_length_split
                  (fun doc => delete_match (deref (heap s) doc) q) docs) as H.
    match goal with |- context [if ?b then _ else _] => destruct b end;
      simpl; lia. }
  assert (Hf : find (fst (delete s c q)) c None
               = List.filter (fun doc => negb (delete_match (deref (heap s) doc) q))
                             (find s c None)).
  { rewrite !find_all. apply delete_collection. }
  repeat split; auto using delete_heap.
  rewrite Hr. unfold count. rewrite Hf, find_all. unfold delete_matched.
  pose proof (filter_length_split
                (fun doc => delete_match (deref (heap s) doc) q)
                (collection s c)) as H.
  lia.
Qed.

Lemma delete_match_without_null doc q :
  (forall key v, In (key, v) q -> v <> VNone) ->
  delete_match doc q = query_match doc q.
Proof.
  induction q as [|[k v] r IH]; intros H; simpl; [reflexivity|].
  unfold dict_get_or_none, py_ne. simpl.
  destruct (Dict.get k doc) as [w|]; simpl.
  - destruct (py_eq w v); simpl; [|reflexivity].
    apply IH. intros key v' Hin. apply (H key). now right.
  - destruct v; try reflexivity.
    exfalso. apply (H k VNone); [now left | reflexivity].
Qed.

(** X11.  When no value of the query is [None], [delete] takes out exactly
    the documents [find] returns for that query. *)
Theorem delete_agrees_with_find_without_null s c q :
  (forall key v, In (key, v) q -> v <> VNone) ->
  delete_matched s c q = find s c (Some q).
Proof.
  intros H. unfold delete_matched, find, collection.
  destruct (Dict.get c (data s)) as [docs|]; simpl; [|reflexivity].
  apply filter_ext. intros l. now apply delete_match_without_null.
Qed.

(** ** Collections *)

Lemma mem_keys {V} k (d : list (string * V)) :
  Dict.mem k d = true <-> In k (Dict.keys d).
Proof.
  destruct (Dict.mem k d) eqn:E.
  - split; [intros _ | reflexivity].
    destruct (in_dec string_dec k (Dict.keys d)) as [H|H]; [exact H|].
    apply get_none_keys, mem_false in H. congruence.
  - split; [discriminate|]. intros H. apply mem_false, get_none_keys in E.
    contradiction.
Qed.

Section Names.
Variable now : nat -> float.

Lemma step_names_unique s c :
  NoDup (Dict.keys (data s)) -> NoDup (Dict.keys (data (step now s c))).
Proof.
  intros H. destruct c; simpl.
  - now apply create_collection_keys.
  - now apply insert_keys.
  - now rewrite update_data.
  - rewrite delete_data. destruct (Dict.get collection_name (data s)) eqn:E; [|exact H].
    rewrite keys_set. replace (Dict.mem collection_name (data s)) with true; [exact H|].
    symmetry. apply mem_get. eauto.
  - unfold drop_collection. destruct (Dict.mem collection_name (data s)); simpl; [|exact H].
    rewrite save_data. simpl. now apply keys_del_NoDup.
Qed.

Lemma run_names_unique calls : forall s,
  NoDup (Dict.keys (data s)) -> NoDup (Dict.keys (data (run now s calls))).
Proof.
  induction calls as [|c r IH]; intros s H; simpl; [exact H|].
  apply IH. now apply step_names_unique.
Qed.
End Names.

(** X12.  [create_collection] on a name that is listed changes nothing and
    saves nothing; on a new name it adds the name at the end of
    [list_collections], with no document in it, and leaves the other
    collections as they are.  Calling it a second time changes nothing. *)
Theorem create_collection_once s c :
  let s' := create_collection s c in
  (In c (list_collections s) -> s' = s) /\
  (~ In c (list_collections s) ->
   list_collections s' = list_collections s ++ [c] /\
   find s' c None = [] /\
   heap s' = heap s /\
   forall c' oq, c' <> c -> find s' c' oq = find s c' oq) /\
  create_collection s' c = s'.
Proof.
  simpl. unfold list_collections. repeat split.
  - intros H. apply mem_keys in H. unfold create_collection. now rewrite H.
  - unfold create_collection.
    destruct (Dict.mem c (data s)) eqn:E; [apply mem_keys in E; contradiction|].
    rewrite save_data. simpl. apply keys_snoc.
  - rewrite find_all, create_collection_collection. unfold collection.
    apply get_none_keys in H. now rewrite H.
  - apply create_collection_heap.
  - intros c' oq Hne. unfold find.
    now rewrite create_collection_get_ne, create_collection_heap.
  - unfold create_collection at 1.
    replace (Dict.mem c (data (create_collection s c))) with true; [reflexivity|].
    symmetry. apply mem_get. eexists. apply create_collection_get.
Qed.

(** X13.  In every state reached from the empty database,
    [drop_collection] returns [True] exactly when the name is listed; if
    it returns [False] nothing has changed; after it the name is not
    listed, [find] on it returns nothing, no object is written and every
    other collection is as before. *)
Theorem drop_collection_removes (now : nat -> float) h w calls c :
  let s := run now (fresh h w) calls in
  let s' := fst (drop_collection s c) in
  (snd (drop_collection s c) = true <-> In c (list_collections s)) /\
  (snd (drop_collection s c) = false -> s' = s) /\
  ~ In c (list_collections s') /\
  (forall oq, find s' c oq = []) /\
  heap s' = heap s /\
  (forall c' oq, c' <> c -> find s' c' oq = find s c' oq).
Proof.
  simpl. set (s := run now (fresh h w) calls).
  assert (Hnd : NoDup (Dict.keys (data s)))
    by (apply run_names_unique; constructor).
  assert (Hget : Dict.get c (data (fst (drop_collection s c))) = None).
  { unfold drop_collection. destruct (Dict.mem c (data s)) eqn:E; simpl.
    - rewrite save_data. simpl. now apply get_del_eq.
    - now apply mem_false. }
  unfold list_collections. repeat split.
  - unfold drop_collection. destruct (Dict.mem c (data s)) eqn:E; simpl.
    + intros _. now apply mem_keys.
    + discriminate.
  - intros H. apply mem_keys in H. unfold drop_collection. now rewrite H.
  - unfold drop_collection. destruct (Dict.mem c (data s)); simpl; congruence.
  - now apply get_none_keys.
  - intros oq. unfold find. now rewrite Hget.
  - apply drop_heap.
  - intros c' oq Hne. unfold find. now rewrite drop_get_ne, drop_heap.
Qed.

(** ** The file *)

Lemma dump_ext s s' : heap s' = heap s -> data s' = data s -> dump s' = dump s.
Proof. unfold dump. now intros -> ->. Qed.

Lemma save_writable s : writable (_save_data s) = writable s.
Proof. unfold _save_data. now destruct (writable s). Qed.

Lemma save_mirrors s :
  writable s = true ->
  writable (_save_data s) = true /\ on_file (_save_data s) = dump (_save_data s).
Proof.
  intros Hw. split; [now rewrite save_writable|].
  unfold _save_data, on_file. now rewrite Hw.
Qed.

Lemma filter_length_all {A} (f : A -> bool) (l : list A) :
  length (List.filter f l) = length l -> List.filter f l = l.
Proof.
  induction l as [|a r IH]; simpl; [reflexivity|].
  pose proof (filter_length_le f r) as Hle.
  destruct (f a); simpl; intros H; [f_equal; apply IH; lia | lia].
Qed.

Section Mirror.
Variable now : nat -> float.

Lemma update_loop_zero docs q p : forall h t n,
  let r := update_loop now docs q p h t n in
  (n <= snd r)%Z /\ (snd r = n -> fst (fst r) = h /\ snd (fst r) = t).
Proof.
  induction docs as [|d r IH]; intros h t n; simpl; [split; [lia | auto]|].
  destruct (query_match (deref h d) q); [|apply IH].
  destruct (IH (<[d := Dict.set "_modified" (VFloat (now t))
                              (Dict.update (deref h d) p)]> h) (S t) (n + 1)%Z)
    as [Hle _].
  split; lia.
Qed.

Lemma create_collection_mirrored s c :
  mirrored s -> mirrored (create_collection s c).
Proof.
  intros [Hw Hm]. unfold create_collection.
  destruct (Dict.mem c (data s)); [now split|]. now apply save_mirrors.
Qed.

Lemma insert_mirrored s c l : mirrored s -> mirrored (fst (insert now s c l)).
Proof.
  intros H. apply (create_collection_mirrored s c) in H as [Hw Hm].
  unfold insert. destruct (py_int _); simpl.
  - now apply save_mirrors.
  - split; [exact Hw|]. unfold on_file in *. simpl. rewrite Hm.
    symmetry. now apply dump_ext.
Qed.

Lemma update_mirrored s c q p : mirrored s -> mirrored (fst (update now s c q p)).
Proof.
  intros [Hw Hm]. unfold update.
  destruct (Dict.get c (data s)) as [docs|]; [|now split].
  destruct (update_loop_zero docs q p (heap s) (tick s) 0) as [Hle Hz].
  destruct (update_loop now docs q p (heap s) (tick s) 0) as [[h t] n].
  simpl in *. destruct (Z.ltb_spec 0 n); simpl.
  - now apply save_mirrors.
  - destruct Hz as [-> ->]; [lia|]. rewrite state_eta. now split.
Qed.

Lemma delete_mirrored s c q : mirrored s -> mirrored (fst (delete s c q)).
Proof.
  intros [Hw Hm]. unfold delete.
  destruct (Dict.get c (data s)) as [docs|] eqn:E; [|now split].
  match goal with |- context [if (0 <? ?d)%Z then _ else _] =>
    destruct (Z.ltb_spec 0 d) as [Hd|Hd] end; simpl.
  - now apply save_mirrors.
  - pose proof (filter_length_le
                  (fun doc => negb (delete_match (deref (heap s) doc) q)) docs).
    rewrite filter_length_all by lia.
    rewrite set_same by exact E. unfold set_data. rewrite state_eta. now split.
Qed.

Lemma drop_mirrored s c : mirrored s -> mirrored (fst (drop_collection s c)).
Proof.
  intros [Hw Hm]. unfold drop_collection.
  destruct (Dict.mem c (data s)); simpl; [now apply save_mirrors | now split].
Qed.

Lemma run_mirrored calls : forall s, mirrored s -> mirrored (run now s calls).
Proof.
  induction calls as [|c r IH]; intros s H; simpl; [exact H|].
  apply IH. destruct c; simpl.
  - now apply create_collection_mirrored.
  - now apply insert_mirrored.
  - now apply update_mirrored.
  - now apply delete_mirrored.
  - now apply drop_mirrored.
Qed.

Lemma fresh_mirrored h : mirrored (fresh h true).
Proof. now split. Qed.
End Mirror.

(** X14.  On a path that can be written, after any sequence of calls from
    the empty database the file holds exactly the collections and
    documents the memory holds. *)
Theorem file_mirrors_memory (now : nat -> float) h calls :
  on_file (run now (fresh h true) calls)
  = dump (run now (fresh h true) calls).
Proof. apply (run_mirrored now calls), fresh_mirrored. Qed.

(** ** Opening the file again *)

Lemma new_loc_fresh (h : gmap loc dict) : h !! new_loc h = None.
Proof. unfold new_loc. apply not_elem_of_dom. apply is_fresh. Qed.

Lemma load_docs_spec docs : forall h,
  let r := load_docs h docs in
  contents (fst r) (snd r) = docs /\
  h ⊆ fst r /\
  (forall l, In l (snd r) -> h !! l = None /\ is_Some (fst r !! l)).
Proof.
  induction docs as [|d rest IH]; intros h; simpl.
  - split; [reflexivity|]. split; [reflexivity|]. intros l [].
  - pose proof (new_loc_fresh h) as Hnew.
    specialize (IH (<[new_loc h := d]> h)).
    destruct (load_docs (<[new_loc h := d]> h) rest) as [h1 ls]. simpl in *.
    destruct IH as (Hc & Hsub & Hls).
    assert (Hl : h1 !! new_loc h = Some d).
    { eapply lookup_weaken; [apply lookup_insert_eq | exact Hsub]. }
    split; [|split].
    + unfold deref at 1. rewrite Hl. simpl. now f_equal.
    + etrans; [apply insert_subseteq, Hnew | exact Hsub].
    + intros l [<-|H].
      * split; [exact Hnew | eauto].
      * destruct (Hls l H) as [Hn Hs]. apply lookup_insert_None in Hn. tauto.
Qed.

Lemma contents_weaken (h h' : gmap loc dict) ls :
  h ⊆ h' -> (forall l, In l ls -> is_Some (h !! l)) ->
  contents h' ls = contents h ls.
Proof.
  intros Hsub Hls. apply contents_ext. intros l Hl.
  destruct (Hls l Hl) as [d Hd]. unfold deref.
  now rewrite Hd, (lookup_weaken _ _ _ _ Hd Hsub).
Qed.

Lemma load_collections_spec snap : forall h,
  let r := load_collections h snap in
  map (fun cl : string * list loc => (fst cl, contents (fst r) (snd cl))) (snd r)
  = snap /\
  h ⊆ fst r /\
  (forall c ls l, In (c, ls) (snd r) -> In l ls ->
     h !! l = None /\ is_Some (fst r !! l)).
Proof.
  induction snap as [|[name docs] rest IH]; intros h; simpl.
  - split; [reflexivity|]. split; [reflexivity|]. intros c ls l [].
  - pose proof (load_docs_spec docs h) as Hd.
    destruct (load_docs h docs) as [h1 ls1]. simpl in Hd.
    destruct Hd as (Hc1 & Hsub1 & Hls1).
    specialize (IH h1). destruct (load_collections h1 rest) as [h2 d]. simpl in *.
    destruct IH as (Hc2 & Hsub2 & Hls2).
    split; [|split].
    + f_equal; [|exact Hc2]. f_equal. rewrite <- Hc1.
      apply contents_weaken; [exact Hsub2|]. intros l Hl. now apply Hls1.
    + etrans; [exact Hsub1 | exact Hsub2].
    + intros c ls l [Heq|H] Hl.
      * injection Heq as <- <-. destruct (Hls1 l Hl) as [Hn [x Hx]].
        split; [exact Hn|]. exists x. eapply lookup_weaken; eauto.
      * destruct (Hls2 c ls l H Hl) as [Hn Hs]. split; [|exact Hs].
        destruct (h !! l) as [x|] eqn:E; [|reflexivity].
        rewrite (lookup_weaken _ _ _ _ E Hsub1) in Hn. discriminate.
Qed.

Lemma reopen_dump s : dump (reopen s) = on_file s.
Proof.
  unfold reopen, file_at, on_file, _load_data.
  destruct (disk s) as [snap|]; simpl; [|reflexivity].
  pose proof (load_collections_spec snap (heap s)) as H.
  destruct (load_collections (heap s) snap) as [h d]. simpl in *.
  apply H.
Qed.

Lemma get_map_values {V W} (f : V -> W) k (d : list (string * V)) :
  Dict.get k (map (fun kv : string * V => (fst kv, f (snd kv))) d)
  = option_map f (Dict.get k d).
Proof.
  induction d as [|[k' v] r IH]; simpl; [reflexivity|].
  now destruct (String.eqb k' k).
Qed.

Lemma map_filter_comm {A B} (g : A -> B) (f : B -> bool) (l : list A) :
  map g (List.filter (fun x => f (g x)) l) = List.filter f (map g l).
Proof.
  induction l as [|a r IH]; simpl; [reflexivity|].
  destruct (f (g a)); simpl; now rewrite IH.
Qed.

(** What [find] shows is a function of the dump. *)
Lemma view_of_dump s c oq :
  view s c oq
  = match Dict.get c (dump s) with
    | None => []
    | Some docs =>
        match oq with
        | None => docs
        | Some q => List.filter (fun d => query_match d q) docs
        end
    end.
Proof.
  unfold view, find, dump. rewrite get_map_values.
  destruct (Dict.get c (data s)) as [ls|]; simpl; [|reflexivity].
  destruct oq as [q|]; [|reflexivity].
  apply (map_filter_comm (deref (heap s)) (fun d => query_match d q)).
Qed.

Lemma keys_dump s : Dict.keys (dump s) = list_collections s.
Proof.
  unfold dump, list_collections, Dict.keys. rewrite map_map. reflexivity.
Qed.

Lemma get_In {V} k (v : V) (d : list (string * V)) :
  Dict.get k d = Some v -> In (k, v) d.
Proof.
  induction d as [|[k' v'] r IH]; simpl; [discriminate|].
  destruct (String.eqb_spec k' k) as [->|Hne]; intros H.
  - injection H as ->. now left.
  - right. now apply IH.
Qed.

Lemma reopen_new_objects s l : stored (reopen s) l -> heap s !! l = None.
Proof.
  intros [c Hc]. unfold collection, reopen, file_at, _load_data in Hc.
  destruct (disk s) as [snap|]; simpl in Hc; [|destruct Hc].
  pose proof (load_collections_spec snap (heap s)) as H.
  destruct (load_collections (heap s) snap) as [h d]. simpl in *.
  destruct (Dict.get c d) as [ls|] eqn:E; simpl in Hc; [|destruct Hc].
  destruct H as (_ & _ & H). now apply (H c ls l (get_In _ _ _ E) Hc).
Qed.

(** X15.  A second engine opened on the path after any sequence of calls
    from the empty database (the path can be written, and [json.load] gives
    back the value [json.dump] wrote) lists the same collections in the
    same order and shows the same documents by value in the same order:
    for every collection without a query, and for every query none of
    whose values holds a NaN.  (A query that shares a NaN object with a
    stored document is left out: CPython takes an object inside a list or
    dict to equal itself, so it can match in the first engine only.)  The
    documents of the second engine are new objects, none of which the first
    engine or the caller holds. *)
Theorem reopen_round_trip (now : nat -> float) h calls :
  let s := run now (fresh h true) calls in
  list_collections (reopen s) = list_collections s /\
  (forall c, view (reopen s) c None = view s c None) /\
  (forall c q, query_nan_free q = true ->
     view (reopen s) c (Some q) = view s c (Some q)) /\
  (forall l, stored (reopen s) l -> heap s !! l = None).
Proof.
  simpl. set (s := run now (fresh h true) calls).
  assert (Hd : dump (reopen s) = dump s).
  { rewrite reopen_dump. apply (run_mirrored now calls), fresh_mirrored. }
  split; [|split; [|split]].
  - now rewrite <- !keys_dump, Hd.
  - intros c. now rewrite !view_of_dump, Hd.
  - intros c q _. now rewrite !view_of_dump, Hd.
  - apply reopen_new_objects.
Qed.

(** ** Saving *)

Lemma save_log_length s : length (log (_save_data s)) = S (length (log s)).
Proof.
  unfold _save_data. destruct (writable s); simpl; rewrite length_app; simpl; lia.
Qed.

Lemma save_disk_unwritable s : writable s = false -> disk (_save_data s) = disk s.
Proof. unfold _save_data. now intros ->. Qed.

Lemma save_memory s : memory (_save_data s) = memory s.
Proof. unfold memory. now rewrite save_heap, save_data, save_tick. Qed.

Section Saving.
Variable now : nat -> float.

Lemma perform_memory s1 s2 c :
  memory s1 = memory s2 ->
  memory (fst (perform now s1 c)) = memory (fst (perform now s2 c)) /\
  snd (perform now s1 c) = snd (perform now s2 c).
Proof.
  destruct s1 as [h1 d1 t1 w1 k1 g1], s2 as [h2 d2 t2 w2 k2 g2].
  unfold memory. simpl. intros H. injection H as -> -> ->.
  destruct c as [name | name doc | name q p | name q | name]; simpl.
  - unfold create_collection, _save_data. simpl.
    destruct (Dict.mem name d2), w1, w2; simpl; auto.
  - unfold insert, create_collection, collection, _save_data. simpl.
    destruct (Dict.mem name d2), w1, w2; simpl;
      destruct (py_int _); simpl; auto.
  - unfold update, _save_data. simpl.
    destruct (Dict.get name d2); simpl; [|auto].
    destruct (update_loop now l q p h2 t2 0) as [[h t] n].
    destruct (0 <? n)%Z, w1, w2; simpl; auto.
  - unfold delete, _save_data. simpl.
    destruct (Dict.get name d2); simpl; [|auto].
    match goal with |- context [if (0 <? ?b)%Z then _ else _] =>
      destruct (0 <? b)%Z end;
      destruct w1, w2; simpl; auto.
  - unfold drop_collection, _save_data. simpl.
    destruct (Dict.mem name d2), w1, w2; simpl; auto.
Qed.

Lemma create_collection_writable s c :
  writable (create_collection s c) = writable s.
Proof.
  unfold create_collection. destruct (Dict.mem c (data s)); [reflexivity|].
  now rewrite save_writable.
Qed.

Lemma create_collection_disk_unwritable s c :
  writable s = false -> disk (create_collection s c) = disk s.
Proof.
  intros H. unfold create_collection. destruct (Dict.mem c (data s)); [reflexivity|].
  now rewrite save_disk_unwritable.
Qed.

Lemma perform_disk_unwritable s c :
  writable s = false -> disk (fst (perform now s c)) = disk s.
Proof.
  intros Hw. destruct c as [name | name doc | name q p | name q | name]; simpl.
  - now apply create_collection_disk_unwritable.
  - unfold insert.
    pose proof (create_collection_writable s name) as Hw1.
    pose proof (create_collection_disk_unwritable s name Hw) as Hd1.
    rewrite Hw in Hw1.
    destruct (py_int _); simpl; [|exact Hd1].
    rewrite save_disk_unwritable by exact Hw1. exact Hd1.
  - unfold update. destruct (Dict.get name (data s)); [|reflexivity].
    destruct (update_loop now l q p (heap s) (tick s) 0) as [[h t] n].
    destruct (0 <? n)%Z; simpl; [|reflexivity].
    now rewrite save_disk_unwritable.
  - unfold delete. destruct (Dict.get name (data s)); [|reflexivity].
    match goal with |- context [if ?b then _ else _] => destruct b end;
      simpl; [|reflexivity].
    now rewrite save_disk_unwritable.
  - unfold drop_collection. destruct (Dict.mem name (data s)); simpl;
      [|reflexivity].
    now rewrite save_disk_unwritable.
Qed.
End Saving.

(** X16.  A save that fails changes neither what a call returns nor the
    memory it leaves: two engines that agree on objects, collections and
    clock position agree on them after the same call and return the same
    answer, whatever their files; and on a path that cannot be written the
    call leaves the file as it was. *)
Theorem save_failure_keeps_memory (now : nat -> float) s1 s2 c :
  memory s1 = memory s2 ->
  memory (fst (perform now s1 c)) = memory (fst (perform now s2 c)) /\
  snd (perform now s1 c) = snd (perform now s2 c) /\
  (writable s1 = false -> disk (fst (perform now s1 c)) = disk s1).
Proof.
  intros H. destruct (perform_memory now s1 s2 c H) as [Hm Ha].
  repeat split; auto. apply perform_disk_unwritable.
Qed.

(** X17.  A call that returns 0 or [False] does not run [_save_data];
    [update], [delete] and [drop_collection] run it once otherwise;
    [create_collection] runs it once for a new name and not at all for a
    listed one; a successful [insert] runs it once into a listed
    collection and twice into a new one. *)
Theorem saves_per_call (now : nat -> float) s :
  (forall c, saves s (create_collection s c)
             = if Dict.mem c (data s) then 0 else 1) /\
  (forall c l us, id_reading now (tick s) = Ok us ->
     saves s (fst (insert now s c l)) = if Dict.mem c (data s) then 1 else 2) /\
  (forall c q p, saves s (fst (update now s c q p))
                 = if (0 <? snd (update now s c q p))%Z then 1 else 0) /\
  (forall c q, saves s (fst (delete s c q))
               = if (0 <? snd (delete s c q))%Z then 1 else 0) /\
  (forall c, saves s (fst (drop_collection s c))
             = if snd (drop_collection s c) then 1 else 0).
Proof.
  unfold saves.
  assert (Hc : forall c, length (log (create_collection s c))
                         = length (log s) + if Dict.mem c (data s) then 0 else 1).
  { intros c. unfold create_collection. destruct (Dict.mem c (data s)); [lia|].
    rewrite save_log_length. simpl. lia. }
  repeat split.
  - intros c. rewrite Hc. destruct (Dict.mem c (data s)); lia.
  - intros c l us Hus. specialize (Hc c). unfold insert, id_reading in *.
    rewrite create_collection_tick, Hus. simpl. rewrite save_log_length. simpl.
    destruct (Dict.mem c (data s)); lia.
  - intros c q p. unfold update.
    destruct (Dict.get c (data s)); simpl; [|lia].
    destruct (update_loop now l q p (heap s) (tick s) 0) as [[h t] n].
    destruct (0 <? n)%Z eqn:E; simpl; rewrite E; [rewrite save_log_length|];
      simpl; lia.
  - intros c q. unfold delete. destruct (Dict.get c (data s)); simpl; [|lia].
    match goal with |- context [if ?b then _ else _] => destruct b eqn:E end;
      simpl; rewrite E; [rewrite save_log_length|]; simpl; lia.
  - intros c. unfold drop_collection. destruct (Dict.mem c (data s)); simpl;
      [rewrite save_log_length|]; simpl; lia.
Qed.

(** ** [update] followed by [find] *)




(** ** The further properties at the sample data *)

Lemma insert_appends_witness :
  id_reading Sample.ticking_clock (tick Sample.users) = Ok 1730000000750000%Z /\
  find (fst (insert Sample.ticking_clock Sample.users "users" 2)) "users" None
  = find Sample.users "users" None ++ [2] /\
  count (fst (insert Sample.ticking_clock Sample.users "users" 2)) "users" None
  = (count Sample.users "users" None + 1)%Z.
Proof.
  assert (H : id_reading Sample.ticking_clock (tick Sample.users)
              = Ok 1730000000750000%Z) by (vm_compute; reflexivity).
  split; [exact H|].
  apply (insert_appends Sample.ticking_clock Sample.users "users" 2 _ H).
Defined.

Lemma insert_then_find_by_id_witness :
  id_reading Sample.ticking_clock (tick Sample.users) = Ok 1730000000750000%Z /\
  In 2 (find (fst (insert Sample.ticking_clock Sample.users "users" 2)) "users"
             (Some [("_id", VStr (py_str 1730000000750000))])) /\
  Dict.get "name"
    (deref (heap (fst (insert Sample.ticking_clock Sample.users "users" 2))) 2)
  = Dict.get "name" (deref (heap Sample.users) 2).
Proof.
  assert (H : id_reading Sample.ticking_clock (tick Sample.users)
              = Ok 1730000000750000%Z) by (vm_compute; reflexivity).
  destruct (insert_then_find_by_id Sample.ticking_clock Sample.users "users" 2 _ H)
    as (Hfind & _ & _ & _ & Hother).
  split; [exact H|]. split; [exact Hfind|].
  apply Hother; discriminate.
Defined.

Lemma find_one_first_match_witness :
  find_one Sample.users "users" [("name", VStr "Bob")] = Some 1 /\
  query_holds (deref (heap Sample.users) 1) [("name", VStr "Bob")] /\
  find_one Sample.users "users" [("name", VStr "Zoe")] = None.
Proof.
  assert (H : find_one Sample.users "users" [("name", VStr "Bob")] = Some 1)
    by (vm_compute; reflexivity).
  split; [exact H|].
  destruct (find_one_first_match Sample.users "users" [("name", VStr "Bob")])
    as [_ Hsome].
  destruct (Hsome 1 H) as [Hq _]. split; [exact Hq|].
  apply (find_one_first_match Sample.users "users" [("name", VStr "Zoe")]).
  vm_compute; reflexivity.
Defined.

Lemma cli_find_limit_witness :
  cli_find Sample.users "users" None (Some 1%Z) = [0] /\
  cli_find Sample.users "users" None (Some 0%Z) = [0; 1] /\
  cli_find Sample.users "users" None (Some (-1)%Z) = [0].
Proof.
  destruct (cli_find_limit Sample.users "users" None 1) as (Hpos & Hzero & _).
  destruct (cli_find_limit Sample.users "users" None (-1)) as (_ & _ & Hneg).
  destruct Hpos as [Hp _]; [lia|]. destruct Hneg as [Hn _]; [lia|].
  split; [rewrite Hp; vm_compute; reflexivity|].
  split; [rewrite Hzero; vm_compute; reflexivity|].
  rewrite Hn. vm_compute; reflexivity.
Defined.





Lemma delete_agrees_with_find_without_null_witness :
  (forall key v, In (key, v) [("name", VStr "Bob")] -> v <> VNone) /\
  delete_matched Sample.users "users" [("name", VStr "Bob")]
  = find Sample.users "users" (Some [("name", VStr "Bob")]).
Proof.
  assert (H : forall key v, In (key, v) [("name", VStr "Bob")] -> v <> VNone).
  { intros key v [Heq|[]]. injection Heq as <- <-. discriminate. }
  split; [exact H|].
  apply (delete_agrees_with_find_without_null Sample.users "users"
           [("name", VStr "Bob")] H).
Defined.

Lemma create_collection_once_witness :
  create_collection Sample.users "users" = Sample.users /\
  list_collections (create_collection Sample.users "logs")
  = list_collections Sample.users ++ ["logs"] /\
  find (create_collection Sample.users "logs") "logs" None = [].
Proof.
  destruct (create_collection_once Sample.users "users") as (Hold & _ & _).
  destruct (create_collection_once Sample.users "logs") as (_ & Hnew & _).
  split.
  - apply Hold. vm_compute. now left.
  - assert (H : ~ In "logs" (list_collections Sample.users)).
    { vm_compute. intros [H|[]]. discriminate. }
    destruct (Hnew H) as (Hl & Hf & _). now split.
Defined.

Lemma drop_collection_removes_witness :
  snd (drop_collection
         (run Sample.ticking_clock (fresh Sample.objects true) Sample.plain_calls)
         "users") = true /\
  fst (drop_collection
         (run Sample.ticking_clock (fresh Sample.objects true) Sample.plain_calls)
         "ghosts")
  = run Sample.ticking_clock (fresh Sample.objects true) Sample.plain_calls.
Proof.
  destruct (drop_collection_removes Sample.ticking_clock Sample.objects true
              Sample.plain_calls "users") as (Hiff & _).
  destruct (drop_collection_removes Sample.ticking_clock Sample.objects true
              Sample.plain_calls "ghosts") as (_ & Hfalse & _).
  split.
  - apply Hiff. vm_compute. now left.
  - apply Hfalse. vm_compute. reflexivity.
Defined.

Lemma reopen_round_trip_witness :
  stored (reopen (run Sample.ticking_clock (fresh Sample.objects true)
                      Sample.plain_calls)) 7 /\
  heap (run Sample.ticking_clock (fresh Sample.objects true) Sample.plain_calls)
    !! 7 = None /\
  query_nan_free [("age", VFloat 31)] = true /\
  view (reopen (run Sample.ticking_clock (fresh Sample.objects true)
                    Sample.plain_calls)) "users" (Some [("age", VFloat 31)])
  = view (run Sample.ticking_clock (fresh Sample.objects true)
              Sample.plain_calls) "users" (Some [("age", VFloat 31)]).
Proof.
  destruct (reopen_round_trip Sample.ticking_clock Sample.objects
              Sample.plain_calls) as (_ & _ & Hview & Hnew).
  assert (H : stored (reopen (run Sample.ticking_clock (fresh Sample.objects true)
                                  Sample.plain_calls)) 7)
    by (exists "users"; vm_compute; now left).
  assert (Hq : query_nan_free [("age", VFloat 31)] = true) by reflexivity.
  split; [exact H|]. split; [exact (Hnew 7 H)|]. split; [exact Hq|].
  apply Hview. exact Hq.
Defined.

Lemma save_failure_keeps_memory_witness :
  memory (fresh Sample.objects false) = memory (fresh Sample.objects true) /\
  snd (perform Sample.ticking_clock (fresh Sample.objects false) (Insert "users" 0))
  = snd (perform Sample.ticking_clock (fresh Sample.objects true) (Insert "users" 0)) /\
  disk (fst (perform Sample.ticking_clock (fresh Sample.objects false)
               (Insert "users" 0))) = None.
Proof.
  assert (H : memory (fresh Sample.objects false) = memory (fresh Sample.objects true))
    by reflexivity.
  destruct (save_failure_keeps_memory Sample.ticking_clock
              (fresh Sample.objects false) (fresh Sample.objects true)
              (Insert "users" 0) H) as (_ & Ha & Hd).
  split; [exact H|]. split; [exact Ha|]. exact (Hd eq_refl).
Defined.

Lemma saves_per_call_witness :
  id_reading Sample.ticking_clock (tick Sample.users) = Ok 1730000000750000%Z /\
  saves Sample.users (fst (insert Sample.ticking_clock Sample.users "users" 2)) = 1 /\
  saves Sample.users (fst (insert Sample.ticking_clock Sample.users "admins" 2)) = 2.
Proof.
  assert (H : id_reading Sample.ticking_clock (tick Sample.users)
              = Ok 1730000000750000%Z) by (vm_compute; reflexivity).
  destruct (saves_per_call Sample.ticking_clock Sample.users) as (_ & Hi & _).
  split; [exact H|]. split.
  - exact (Hi "users" 2 _ H).
  - exact (Hi "admins" 2 _ H).
Defined.

(** ** Calls that match nothing, as the code has them *)

(** X18.  An [update] whose query matches no document ([find] with it
    returns nothing) returns 0 and leaves the whole state as it was:
    objects, collections, clock position, file and trace of saves.  So
    does a [delete] when no document passes its own test, which is the
    case whenever [find] with the query returns nothing and no value of
    the query is [None]. *)
Theorem noop_calls_change_nothing (now : nat -> float) s c q p :
  (find s c (Some q) = [] -> update now s c q p = (s, 0%Z)) /\
  (delete_matched s c q = [] -> delete s c q = (s, 0%Z)) /\
  ((forall key v, In (key, v) q -> v <> VNone) ->
   find s c (Some q) = [] -> delete s c q = (s, 0%Z)).
Proof.
  split; [apply update_no_match|]. split; [apply delete_no_match|].
  intros Hnull Hfind. apply delete_no_match.
  unfold delete_matched, collection. unfold find in Hfind.
  destruct (Dict.get c (data s)) as [docs|]; simpl; [|reflexivity].
  rewrite <- Hfind. apply filter_ext. intros l.
  now apply delete_match_without_null.
Qed.

Lemma noop_calls_change_nothing_witness :
  find Sample.users "users" (Some [("name", VStr "Zoe")]) = [] /\
  (forall key v, In (key, v) [("name", VStr "Zoe")] -> v <> VNone) /\
  update Sample.ticking_clock Sample.users "users"
         [("name", VStr "Zoe")] [("age", VInt 1)] = (Sample.users, 0%Z) /\
  delete Sample.users "users" [("name", VStr "Zoe")] = (Sample.users, 0%Z).
Proof.
  assert (Hf : find Sample.users "users" (Some [("name", VStr "Zoe")]) = [])
    by (vm_compute; reflexivity).
  assert (Hn : forall key v, In (key, v) [("name", VStr "Zoe")] -> v <> VNone).
  { intros key v [Heq|[]]. injection Heq as <- <-. discriminate. }
  destruct (noop_calls_change_nothing Sample.ticking_clock Sample.users
              "users" [("name", VStr "Zoe")] [("age", VInt 1)]) as (Hu & _ & Hd).
  split; [exact Hf|]. split; [exact Hn|]. split; [exact (Hu Hf) | exact (Hd Hn Hf)].
Defined.
